(** * Verification of the SERENA-UNZIP task engine

    Shallow embedding of the parts of the bot that decide the specified
    properties:
    - [LinkParser]: [utils/link_parser.py] ([find_links_in_text],
      [classify_link], [extract_links_from_folder]);
    - [Progress]: [utils/progress.py] ([progress_for_pyrogram]);
    - [Registry]: [database.py] ([register_temp_path],
      [get_expired_temp_paths]);
    - [Coordinator]: the per-user lock and cancellation flag of [bot.py]
      ([get_lock], [cancel_cmd], [run_unzip_task]);
    - [Batch]: [handle_links_download_all] of [bot.py].

    Strings are modelled as ASCII strings: Python's [lower], [strip] and the
    regular-expression class [\s] are written out for the ASCII range. *)

From Stdlib Require Import Ascii ZArith QArith Qround Qabs Lia.
From stdpp Require Import base gmap list strings.


(** Let [simpl] unfold string concatenation (stdpp turns that off). *)
#[local] Arguments String.append : simpl nomatch.

(* ================================================================== *)
(** ** String helpers (Python [str] methods on ASCII text) *)
(* ================================================================== *)

Module PyStr.

(** [str.isspace] on ASCII: space, \t \n \v \f \r and \x1c-\x1f. *)
Definition is_space (c : ascii) : bool :=
  let n := nat_of_ascii c in
  ((n =? 32)%nat || ((9 <=? n)%nat && (n <=? 13)%nat)
   || ((28 <=? n)%nat && (n <=? 31)%nat))%bool.

(** ASCII [str.lower] on one character. *)
Definition lower_char (c : ascii) : ascii :=
  let n := nat_of_ascii c in
  if ((65 <=? n)%nat && (n <=? 90)%nat)%bool then ascii_of_nat (n + 32) else c.

Fixpoint lower (s : string) : string :=
  match s with
  | EmptyString => EmptyString
  | String c s' => String (lower_char c) (lower s')
  end.

(** [str.lstrip(chars)] / [str.rstrip(chars)] for a character predicate. *)
Fixpoint lstrip_by (p : ascii -> bool) (s : string) : string :=
  match s with
  | EmptyString => EmptyString
  | String c s' => if p c then lstrip_by p s' else s
  end.

Fixpoint rstrip_by (p : ascii -> bool) (s : string) : string :=
  match s with
  | EmptyString => EmptyString
  | String c s' =>
      match rstrip_by p s' with
      | EmptyString => if p c then EmptyString else String c EmptyString
      | r => String c r
      end
  end.

Definition strip_by (p : ascii -> bool) (s : string) : string :=
  rstrip_by p (lstrip_by p s).

(** [str.strip()] *)
Definition strip (s : string) : string := strip_by is_space s.

(** [str.strip(".,)")] *)
Definition punct (c : ascii) : bool :=
  (Ascii.eqb c "." || Ascii.eqb c "," || Ascii.eqb c ")")%bool.

Definition strip_punct (s : string) : string := strip_by punct s.

(** [sub in s] *)
Fixpoint contains (s sub : string) : bool :=
  (String.prefix sub s ||
   match s with
   | EmptyString => false
   | String _ s' => contains s' sub
   end)%bool.

(** [s.endswith(suf)] *)
Fixpoint ends_with (s suf : string) : bool :=
  (String.eqb s suf ||
   match s with
   | EmptyString => false
   | String _ s' => ends_with s' suf
   end)%bool.

(** [s.split(c, 1)[0]] *)
Fixpoint before (c : ascii) (s : string) : string :=
  match s with
  | EmptyString => EmptyString
  | String d s' => if Ascii.eqb d c then EmptyString else String d (before c s')
  end.

(** [all(p(c) for c in s)] *)
Fixpoint all_chars (p : ascii -> bool) (s : string) : bool :=
  match s with
  | EmptyString => true
  | String c s' => (p c && all_chars p s')%bool
  end.

(** Characters other than the query and fragment delimiters. *)
Definition no_qf (c : ascii) : bool :=
  negb (Ascii.eqb c "?" || Ascii.eqb c "#").

(** [str(n)] for a Python [int]: decimal digits, a minus sign when
    negative. *)
Fixpoint uint_str (u : Decimal.uint) : string :=
  match u with
  | Decimal.Nil => ""
  | Decimal.D0 u => String "0" (uint_str u)
  | Decimal.D1 u => String "1" (uint_str u)
  | Decimal.D2 u => String "2" (uint_str u)
  | Decimal.D3 u => String "3" (uint_str u)
  | Decimal.D4 u => String "4" (uint_str u)
  | Decimal.D5 u => String "5" (uint_str u)
  | Decimal.D6 u => String "6" (uint_str u)
  | Decimal.D7 u => String "7" (uint_str u)
  | Decimal.D8 u => String "8" (uint_str u)
  | Decimal.D9 u => String "9" (uint_str u)
  end.

Definition py_str_int (n : Z) : string :=
  match Z.to_int n with
  | Decimal.Pos u => uint_str u
  | Decimal.Neg u => String "-" (uint_str u)
  end.

End PyStr.

(* ================================================================== *)
(** ** [utils/link_parser.py] *)
(* ================================================================== *)

Module LinkParser.
Import PyStr.

Definition VIDEO_EXT : list string :=
  [".mp4"; ".mkv"; ".mov"; ".avi"; ".webm"; ".ts"].
Definition ARCHIVE_EXT : list string :=
  [".zip"; ".rar"; ".7z"; ".tar"; ".gz"; ".tgz"; ".tar.gz"; ".tar.bz2";
   ".tbz2"; ".bz2"; ".xz"].
Definition AUDIO_EXT : list string :=
  [".mp3"; ".m4a"; ".aac"; ".ogg"; ".opus"; ".flac"; ".wav"].
Definition APK_EXT : list string := [".apk"; ".xapk"; ".apks"].

(** [FILE_EXT = VIDEO_EXT | ARCHIVE_EXT | AUDIO_EXT | APK_EXT]; the code
    only asks whether some member is a suffix, so the iteration order of
    the Python set does not matter. *)
Definition FILE_EXT : list string := VIDEO_EXT ++ ARCHIVE_EXT ++ AUDIO_EXT ++ APK_EXT.

(** The five return values of [classify_link]. *)
Inductive kind := Gdrive | Telegram | M3u8 | Direct | Unknown.

Definition kind_eqb (a b : kind) : bool :=
  match a, b with
  | Gdrive, Gdrive | Telegram, Telegram | M3u8, M3u8
  | Direct, Direct | Unknown, Unknown => true
  | _, _ => false
  end.

(** [u_low.split("?", 1)[0].split("#", 1)[0]] *)
Definition base_of (u_low : string) : string := before "#" (before "?" u_low).

Definition classify_link (url : string) : kind :=
  let u := strip url in
  let u_low := lower u in
  if contains u_low "drive.google.com" then Gdrive
  else if (contains u_low "t.me/" || contains u_low "telegram.me/")%bool then Telegram
  else
    let base := base_of u_low in
    if ends_with base ".m3u8" then M3u8
    else if existsb (fun ext => ends_with base ext) FILE_EXT then Direct
    else Unknown.

(** *** [find_links_in_text]: [re.finditer(r"(https?://[^\s]+)", text, re.I)] *)

(** Greedy [[^\s]+]: the longest run of non-space characters. *)
Fixpoint span_nonspace (s : string) : string * string :=
  match s with
  | EmptyString => (EmptyString, EmptyString)
  | String c s' =>
      if is_space c then (EmptyString, s)
      else let '(w, r) := span_nonspace s' in (String c w, r)
  end.

Definition ieq (c : ascii) (lc : ascii) : bool := Ascii.eqb (lower_char c) lc.

(** One pattern character, compared case-insensitively ([re.IGNORECASE]):
    the character read and the remaining input. *)
Definition take_ci (lc : ascii) (s : string) : option (ascii * string) :=
  match s with
  | String c s' => if ieq c lc then Some (c, s') else None
  | EmptyString => None
  end.

(** The match of the pattern anchored at the start of [s], if any:
    the matched text and the rest of the input.  The optional [s] is
    greedy; when it is absent the input is left untouched. *)
Definition match_at (s : string) : option (string * string) :=
  match take_ci "h" s with None => None | Some (h, s1) =>
  match take_ci "t" s1 with None => None | Some (t1, s2) =>
  match take_ci "t" s2 with None => None | Some (t2, s3) =>
  match take_ci "p" s3 with None => None | Some (p, r) =>
  let '(sc, r1) :=
    match take_ci "s" r with
    | Some (c, r') => (String c EmptyString, r')
    | None => (EmptyString, r)
    end in
  match take_ci ":" r1 with None => None | Some (_, r2) =>
  match take_ci "/" r2 with None => None | Some (_, r3) =>
  match take_ci "/" r3 with None => None | Some (_, r4) =>
  let '(w, rest) := span_nonspace r4 in
  match w with
  | EmptyString => None
  | _ => Some (String h (String t1 (String t2 (String p (sc +:+ "://" +:+ w)))), rest)
  end end end end end end end end.

(** [m.group(1).strip().strip(".,)")] *)
Definition clean (m : string) : string := strip_punct (strip m).

(** Left-to-right scan of [finditer]; [fuel] bounds the number of
    characters still to be consumed (each step consumes at least one). *)
Fixpoint scan (fuel : nat) (s : string) : list string :=
  match fuel with
  | O => []
  | S fuel' =>
      match s with
      | EmptyString => []
      | String _ s' =>
          match match_at s with
          | Some (m, rest) => clean m :: scan fuel' rest
          | None => scan fuel' s'
          end
      end
  end.

Definition find_links_in_text (text : string) : list string :=
  scan (String.length text) text.

(** *** [extract_links_from_folder] *)

(** One file met by [os.walk]: its name and the text read from it
    ([None] when [read_text] raised, which the loop skips). *)
Record walk_file := { wf_name : string; wf_text : option string }.

(** The per-category result dictionary; all five keys are present from
    the start, so [setdefault] never adds one. *)
Definition link_map := kind -> list string.

Definition empty_links : link_map := fun _ => [].

Definition mem_str (x : string) (l : list string) : bool := existsb (String.eqb x) l.

(** [kind = classify_link(url)];
    [if url not in all_links[kind]: all_links[kind].append(url)] *)
Definition add_link (m : link_map) (url : string) : link_map :=
  let k := classify_link url in
  if mem_str url (m k) then m
  else fun k' => if kind_eqb k' k then m k ++ [url] else m k'.

Section Folder.

(** [p.suffix.lower() in {".txt", ".m3u", ".m3u8"}], left abstract: the
    results below hold for every choice of scanned files. *)
Variable is_link_file : string -> bool.

Definition scan_file (m : link_map) (f : walk_file) : link_map :=
  if is_link_file (wf_name f) then
    match wf_text f with
    | None => m
    | Some text => fold_left add_link (find_links_in_text text) m
    end
  else m.

(** The files in [os.walk] order. *)
Definition extract_links_from_folder (files : list walk_file) : link_map :=
  fold_left scan_file files empty_links.

(** All URLs met by the scan, in the order they are met. *)
Definition urls_met (files : list walk_file) : list string :=
  concat (map (fun f => if is_link_file (wf_name f) then
                          match wf_text f with
                          | None => []
                          | Some text => find_links_in_text text
                          end
                        else []) files).

End Folder.

(** First-seen deduplication, written independently of [add_link]:
    keep an element when it is not among those already kept. *)
Fixpoint first_seen_from (seen : list string) (l : list string) : list string :=
  match l with
  | [] => []
  | x :: l' =>
      if mem_str x seen then first_seen_from seen l'
      else x :: first_seen_from (seen ++ [x]) l'
  end.

Definition first_seen (l : list string) : list string := first_seen_from [] l.

(** [n] copies of [u], each followed by a space. *)
Fixpoint repeat_sep (u : string) (n : nat) : string :=
  match n with
  | O => EmptyString
  | S n' => u +:+ " " +:+ repeat_sep u n'
  end.

(** The host of a URL (between [://] and the next [/], [?] or [#]);
    used only to state the spec's host-based reading of the classifier. *)
Fixpoint after_scheme (s : string) : string :=
  match s with
  | EmptyString => EmptyString
  | String c s' =>
      if String.prefix "://" s then String.substring 3 (String.length s - 3) s
      else after_scheme s'
  end.

Fixpoint upto_delim (s : string) : string :=
  match s with
  | EmptyString => EmptyString
  | String c s' =>
      if (Ascii.eqb c "/" || Ascii.eqb c "?" || Ascii.eqb c "#")%bool then EmptyString
      else String c (upto_delim s')
  end.

Definition url_host (u : string) : string := upto_delim (after_scheme u).

End LinkParser.

(* ================================================================== *)
(** ** [database.py]: the temp-path collection and its sweep *)
(* ================================================================== *)

Module Registry.

(** A document of [files_col]; [datetime] values are microseconds since
    the epoch, [_id] is the identifier [insert_one] assigns. *)
Record temp_doc := {
  doc_id : nat;
  user_id : Z;
  path : string;
  created_at : Z;
  ttl_min : Z
}.

(** The collection: its documents in natural (insertion) order and the
    next fresh identifier. *)
Record files_col := { next_id : nat; docs : list temp_doc }.

Definition empty_col : files_col := {| next_id := 0; docs := [] |}.

(** [datetime.timedelta(minutes=m)] in microseconds. *)
Definition minutes (m : Z) : Z := (m * 60 * 1000000)%Z.

(** [register_temp_path(user_id, path, ttl_min)] at [utcnow() = now]. *)
Definition register_temp_path (now : Z) (uid : Z) (p : string) (ttl : Z)
    (col : files_col) : files_col :=
  {| next_id := S (next_id col);
     docs := docs col ++ [{| doc_id := next_id col; user_id := uid; path := p;
                             created_at := now; ttl_min := ttl |}] |}.

(** [created + datetime.timedelta(minutes=ttl_min) <= now] *)
Definition is_expired (now : Z) (d : temp_doc) : bool :=
  (created_at d + minutes (ttl_min d) <=? now)%Z.

Definition id_in (i : nat) (ids : list nat) : bool := existsb (Nat.eqb i) ids.

(** [files_col.delete_many({"_id": {"$in": ids}})] *)
Definition delete_many (ids : list nat) (col : files_col) : files_col :=
  {| next_id := next_id col;
     docs := List.filter (fun d => negb (id_in (doc_id d) ids)) (docs col) |}.

(** [get_expired_temp_paths(now)]: the expired paths, in cursor order, and
    the collection after the deletion. *)
Definition get_expired_temp_paths (now : Z) (col : files_col) : list string * files_col :=
  let expired := List.filter (is_expired now) (docs col) in
  let expired_ids := map doc_id expired in
  let expired_paths := map path expired in
  let col' := match expired_ids with
              | [] => col
              | _ => delete_many expired_ids col
              end in
  (expired_paths, col').

(** Collections reachable from [empty_col]: every identifier is below
    [next_id] and identifiers are distinct. *)
Definition col_wf (col : files_col) : Prop :=
  Forall (fun d => (doc_id d < next_id col)%nat) (docs col) /\
  List.NoDup (map doc_id (docs col)).

End Registry.

(* ================================================================== *)
(** ** [utils/progress.py]: [progress_for_pyrogram] *)
(* ================================================================== *)

Module Progress.
Local Open Scope Q_scope.

(** Python's float arithmetic is modelled exactly over [Q]; a division
    returns [None] where Python raises [ZeroDivisionError]. *)
Definition py_div (a b : Q) : option Q :=
  if Qeq_bool b 0 then None else Some (a / b).

Definition qlt (a b : Q) : bool := negb (Qle_bool b a).

(** [int(x)]: truncation toward zero. *)
Definition py_int (q : Q) : Z := Z.quot (Qnum q) (Zpos (Qden q)).

Definition obind {A B} (o : option A) (f : A -> option B) : option B :=
  match o with Some a => f a | None => None end.

Notation "'let?' x ':=' o 'in' k" := (obind o (fun x => k))
  (at level 200, x name, o at level 100, k at level 200, only parsing).

(** The values the edited status message is built from. *)
Record report := { percent : Q; speed : Q; eta : Z; filled_len : Z }.

(** One call, with [time.time() = now] and the module-level
    [_last_update] dictionary (message id -> time of the last edit).
    [Some (None, _)] is the early return of the rate limit,
    [Some (Some r, _)] an emitted report, [None] an exception.  The
    [message.edit_text] failure is swallowed by the code and plays no part
    in the result. *)
Definition progress_for_pyrogram (interval : Q) (now : Q)
    (last_update : gmap Z Q) (current total : Z) (msg_id : Z) (start_time : Q)
    : option (option report * gmap Z Q) :=
  let last := default 0 (last_update !! msg_id) in
  if (qlt (now - last) interval && negb (current =? total)%Z)%bool
  then Some (None, last_update)
  else
    let lu := <[msg_id := now]> last_update in
    let? percent := (if (total =? 0)%Z then Some 0
                     else py_div (inject_Z current * 100) (inject_Z total)) in
    let elapsed := now - start_time in
    let? speed := (if qlt 0 elapsed then py_div (inject_Z current) elapsed else Some 0) in
    let? eta := (if qlt 0 speed
                 then let? q := py_div (inject_Z total - inject_Z current) speed in
                      Some (py_int q)
                 else Some 0%Z) in
    let? fl := (let? q := py_div (20 * percent) 100 in Some (py_int q)) in
    let lu := if (current =? total)%Z then delete msg_id lu else lu in
    Some (Some {| percent := percent; speed := speed; eta := eta; filled_len := fl |}, lu).

(** *** [human_time] and [human_bytes] *)

(** [human_time(seconds)]: negative values count as [0]; [divmod] on the
    non-negative value. *)
Definition human_time (seconds : Z) : string :=
  let seconds := if (seconds <? 0)%Z then 0%Z else seconds in
  let m := (seconds / 60)%Z in
  let s := (seconds mod 60)%Z in
  let h := (m / 60)%Z in
  let m := (m mod 60)%Z in
  if negb (h =? 0)%Z then
    PyStr.py_str_int h +:+ "h " +:+ PyStr.py_str_int m +:+ "m " +:+ PyStr.py_str_int s +:+ "s"
  else if negb (m =? 0)%Z then
    PyStr.py_str_int m +:+ "m " +:+ PyStr.py_str_int s +:+ "s"
  else PyStr.py_str_int s +:+ "s".

Definition power_labels : list string := ["B"; "KB"; "MB"; "GB"; "TB"].

(** [while size >= power and n < len(power_labels) - 1: size /= power;
    n += 1], with [k = 4 - n] iterations left.  Dividing by [1024] is
    exact on floats, and so is the first [int / int] division for sizes
    below [2^53]: the exact value over [Q] is the float's value there. *)
Fixpoint hb_loop (k : nat) (size : Q) (n : nat) : Q * nat :=
  match k with
  | O => (size, n)
  | S k' => if Qle_bool 1024 size then hb_loop k' (size / 1024) (S n) else (size, n)
  end.

(** Rounding to the nearest integer, ties to even (how Python's [.2f]
    rounds the exact value of a float). *)
Definition round_half_even (q : Q) : Z :=
  let f := Qfloor q in
  let r := q - inject_Z f in
  if Qlt_le_dec r (1 # 2) then f
  else if Qeq_bool r (1 # 2) then (if Z.even f then f else f + 1)%Z
  else (f + 1)%Z.

Definition two_digits (d : Z) : string :=
  if (d <? 10)%Z then String "0" (PyStr.py_str_int d) else PyStr.py_str_int d.

(** [f"{v:.2f}"] *)
Definition fmt2 (v : Q) : string :=
  let sign := if Qlt_le_dec v 0 then "-" else "" in
  let c := round_half_even (Qabs v * 100) in
  sign +:+ PyStr.py_str_int (c / 100)%Z +:+ "." +:+ two_digits (c mod 100)%Z.

Definition human_bytes (size : Z) : string :=
  if (size =? 0)%Z then "0 B" else
  let '(v, n) := hb_loop 4 (inject_Z size) 0 in
  fmt2 v +:+ " " +:+ nth n power_labels "".

End Progress.

(* ================================================================== *)
(** ** [bot.py]: per-user lock and cancellation flag *)
(* ================================================================== *)

Module Coordinator.

(** The module-level dictionaries [user_locks] (user id -> whether its
    [asyncio.Lock] is held; an absent key is a lock never created) and
    [user_cancelled]. *)
Record state := {
  user_locks : gmap Z bool;
  user_cancelled : gmap Z bool
}.

Definition empty_state : state := {| user_locks := ∅; user_cancelled := ∅ |}.

(** [get_lock(user_id)]: creates an unlocked lock on first use. *)
Definition get_lock (u : Z) (s : state) : state :=
  match user_locks s !! u with
  | Some _ => s
  | None => {| user_locks := <[u := false]> (user_locks s);
               user_cancelled := user_cancelled s |}
  end.

(** [lock.locked()] *)
Definition locked (u : Z) (s : state) : bool := default false (user_locks s !! u).

Definition set_lock (u : Z) (b : bool) (s : state) : state :=
  {| user_locks := <[u := b]> (user_locks s); user_cancelled := user_cancelled s |}.

(** [user_cancelled[user_id] = b] *)
Definition set_cancelled (u : Z) (b : bool) (s : state) : state :=
  {| user_locks := user_locks s; user_cancelled := <[u := b]> (user_cancelled s) |}.

(** [bool(user_cancelled.get(user_id))] *)
Definition cancelled (u : Z) (s : state) : bool := default false (user_cancelled s !! u).

(** [cancel_cmd]: [user_cancelled[message.from_user.id] = True]. *)
Definition cancel_cmd (u : Z) (s : state) : state := set_cancelled u true s.

Inductive gate := Busy | Granted.

(** The gate of [run_unzip_task]: [lock = get_lock(user_id)];
    [if lock.locked(): reply and return]; [async with lock:].  Nothing is
    awaited between the test and the acquisition, and
    [asyncio.Lock.acquire] on a free lock that no task waits for returns
    without suspending, so test and acquisition are one step of the event
    loop.  (The audio callback awaits between the two: see [step].) *)
Definition try_begin (u : Z) (s : state) : state * gate :=
  let s := get_lock u s in
  if locked u s then (s, Busy) else (set_lock u true s, Granted).

(** Leaving the [async with lock:] block, normally or by an exception. *)
Definition end_task (u : Z) (s : state) : state := set_lock u false s.

(** *** Interleaving of task segments *)




(** What a step tells the task that made it. *)
Inductive outcome := OBusy | OPending | OGranted | OQueued.













(** *** The body of [run_unzip_task] *)

(** How [run_unzip_task] leaves. *)
Inductive exit :=
| ExBusy | ExDownloadFail | ExNoPath | ExCancelled | ExEncrypted
| ExExtractFail | ExCancelledMid | ExDone | ExRaised.

(** What the outside world does during one run: at await number [k] a
    [/cancel] of this user may be handled while the task is suspended
    ([cancel_at k]) and the awaited call may raise ([raises_at k]); the
    results of [download_media], [detect_encrypted] and [extract_archive]. *)
Record unzip_env := {
  cancel_at : nat -> bool;
  raises_at : nat -> bool;
  download_path : bool;
  has_password : bool;
  encrypted : bool;
  extract_ok : bool
}.

Inductive result (A : Type) := Ok (a : A) | Stop (e : exit).
Arguments Ok {A} a.
Arguments Stop {A} e.

(** State and early exit, threaded through the body. *)
Definition M (A : Type) := state -> state * result A.

Definition ret {A} (a : A) : M A := fun s => (s, Ok a).
Definition bind {A B} (m : M A) (k : A -> M B) : M B :=
  fun s => let '(s', r) := m s in
           match r with Ok a => k a s' | Stop e => (s', Stop e) end.
Definition stop {A} (e : exit) : M A := fun s => (s, Stop e).

Notation "'let!' x := m 'in' k" := (bind m (fun x => k))
  (at level 200, x name, m at level 100, k at level 200).

Section Body.
Variable env : unzip_env.
Variable u : Z.

Definition set_flag (b : bool) : M unit := fun s => (set_cancelled u b s, Ok tt).
Definition read_flag : M bool := fun s => (s, Ok (cancelled u s)).

(** [await call] (number [k]), the exception propagating. *)
Definition await_ (k : nat) : M unit := fun s =>
  let s := if cancel_at env k then cancel_cmd u s else s in
  if raises_at env k then (s, Stop ExRaised) else (s, Ok tt).

(** A synchronous call (number [k]) that may raise. *)
Definition sync_ (k : nat) : M unit := fun s =>
  if raises_at env k then (s, Stop ExRaised) else (s, Ok tt).

(** [try: await call except Exception: ...]: whether the call raised. *)
Definition try_await (k : nat) : M bool := fun s =>
  let s := if cancel_at env k then cancel_cmd u s else s in
  (s, Ok (raises_at env k)).

(** The statements inside [async with lock:], awaits numbered in order. *)
Definition unzip_body : M exit :=
  let! _ := set_flag false in          (* user_cancelled[user_id] = False *)
  let! _ := await_ 0 in                (* get_or_create_user *)
  let! _ := sync_ 1 in                 (* temp_root.mkdir *)
  let! _ := await_ 2 in                (* register_temp_path *)
  let! _ := await_ 3 in                (* msg.reply_text *)
  let! failed := try_await 4 in        (* client.download_media *)
  if failed then (let! _ := await_ 5 in stop ExDownloadFail) else
  if negb (download_path env) then (let! _ := await_ 6 in stop ExNoPath) else
  let! _ := try_await 7 in             (* log_user_input, errors ignored *)
  let! c := read_flag in
  if c then (let! _ := await_ 8 in stop ExCancelled) else
  if (negb (has_password env) && encrypted env)%bool
  then (let! _ := await_ 9 in stop ExEncrypted) else
  let! _ := await_ 10 in               (* "Extraction shuru" *)
  if negb (extract_ok env) then (let! _ := await_ 11 in stop ExExtractFail) else
  let! c := read_flag in
  if c then (let! _ := await_ 12 in stop ExCancelledMid) else
  let! _ := sync_ 15 in                (* extract_links_from_folder, summary *)
  let! _ := await_ 13 in               (* summary with buttons *)
  let! _ := await_ 14 in               (* update_user_stats *)
  ret ExDone.

End Body.

(** [run_unzip_task]: the gate, the body, and the release of the lock by
    [async with] on every way out of the body. *)
Definition run_unzip_task (env : unzip_env) (u : Z) (s : state) : state * exit :=
  let '(s1, g) := try_begin u s in
  match g with
  | Busy => (s1, ExBusy)
  | Granted =>
      let '(s2, r) := unzip_body env u s1 in
      (end_task u s2, match r with Ok e => e | Stop e => e end)
  end.

End Coordinator.

(* ================================================================== *)
(** ** [bot.py]: [handle_links_download_all] *)
(* ================================================================== *)

Module Batch.
Import LinkParser.

(** What the handler starts, in the order it starts it: a direct fetch
    (direct or unknown link), a Google Drive fetch, an m3u8 quality menu. *)
Inductive fetch := FDirect (url : string) | FGdrive (url : string) | FMenu (url : string).

(** The result of [get_gdrive_direct_link(url)] ([utils/gdrive.py], not in
    this source tree): a URL, a falsy value, or an exception (the call is
    outside the per-item [try]). *)
Inductive gd := GdUrl (d : string) | GdNone | GdRaise.

(** The outside world: whether [cq.from_user] is set, whether
    [register_temp_path] raises, the answer of the [k]-th test
    [user_cancelled.get(user_id)] (no lock is held, so another task of the
    user may set or reset the flag at any await), and whether the [i]-th
    item's body raises (inside its [try] for a fetch, uncaught for
    [offer_m3u8_quality_menu]). *)
Record batch_env := {
  has_user : bool;
  register_raises : bool;
  cancel_check : nat -> bool;
  item_fails : nat -> bool
}.

Record bstate := {
  ok : nat;
  fail : nat;
  checks : nat;
  items : nat;
  raised : bool;
  trace : list fetch
}.

Inductive outcome := Early | Aborted | Finished (ok fail : nat).

Definition init : bstate :=
  {| ok := 0; fail := 0; checks := 0; items := 0; raised := false; trace := [] |}.

Definition bump_check (st : bstate) : bstate :=
  {| ok := ok st; fail := fail st; checks := S (checks st); items := items st;
     raised := raised st; trace := trace st |}.
Definition start (f : fetch) (st : bstate) : bstate :=
  {| ok := ok st; fail := fail st; checks := checks st; items := S (items st);
     raised := raised st; trace := trace st ++ [f] |}.
Definition add_ok (st : bstate) : bstate :=
  {| ok := S (ok st); fail := fail st; checks := checks st; items := items st;
     raised := raised st; trace := trace st |}.
Definition add_fail (st : bstate) : bstate :=
  {| ok := ok st; fail := S (fail st); checks := checks st; items := items st;
     raised := raised st; trace := trace st |}.
Definition set_raised (st : bstate) : bstate :=
  {| ok := ok st; fail := fail st; checks := checks st; items := items st;
     raised := true; trace := trace st |}.

(** [cats[kind]]: the links of one kind, in input order. *)
Definition pick (k : kind) (links : list string) : list string :=
  List.filter (fun u => kind_eqb (classify_link u) k) links.

(** [candidate_direct = direct_links + unknown_links] *)
Definition candidate_direct (links : list string) : list string :=
  pick Direct links ++ pick Unknown links.

Section Handler.
Variable get_gdrive_direct_link : string -> gd.
Variable env : batch_env.

(** [for url in candidate_direct: if cancelled: break; try: ... ok += 1
    except Exception: fail += 1] *)
Fixpoint direct_loop (urls : list string) (st : bstate) : bstate :=
  match urls with
  | [] => st
  | url :: rest =>
      if cancel_check env (checks st) then bump_check st else
      let st := bump_check st in
      let i := items st in
      let st := start (FDirect url) st in
      direct_loop rest (if item_fails env i then add_fail st else add_ok st)
  end.

(** [for url in gdrive_links:] the same, after resolving the link;
    an unresolved link counts as a failure. *)
Fixpoint gdrive_loop (urls : list string) (st : bstate) : bstate :=
  match urls with
  | [] => st
  | url :: rest =>
      if cancel_check env (checks st) then bump_check st else
      let st := bump_check st in
      match get_gdrive_direct_link url with
      | GdRaise => set_raised st
      | GdNone => gdrive_loop rest (add_fail st)
      | GdUrl _ =>
          let i := items st in
          let st := start (FGdrive url) st in
          gdrive_loop rest (if item_fails env i then add_fail st else add_ok st)
      end
  end.

(** [for url in m3u8_links: if cancelled: break; await offer_m3u8_quality_menu(...)] *)
Fixpoint m3u8_loop (urls : list string) (st : bstate) : bstate :=
  match urls with
  | [] => st
  | url :: rest =>
      if cancel_check env (checks st) then bump_check st else
      let st := bump_check st in
      let i := items st in
      let st := start (FMenu url) st in
      if item_fails env i then set_raised st else m3u8_loop rest st
  end.

Definition handle_links_download_all (all_links : list string) : outcome * list fetch :=
  match all_links with
  | [] => (Early, [])
  | _ =>
      let cand := candidate_direct all_links in
      let m3u8_links := pick M3u8 all_links in
      let gdrive_links := pick Gdrive all_links in
      match cand, m3u8_links, gdrive_links with
      | [], [], [] => (Early, [])
      | _, _, _ =>
          if negb (has_user env) then (Early, []) else
          if register_raises env then (Aborted, []) else
          let st := direct_loop cand init in
          let st := gdrive_loop gdrive_links st in
          if raised st then (Aborted, trace st) else
          let st := m3u8_loop m3u8_links st in
          if raised st then (Aborted, trace st) else (Finished (ok st) (fail st), trace st)
      end
  end.

End Handler.

(** Whether a Google Drive link resolves. *)
Definition resolved (g : string -> gd) (u : string) : bool :=
  match g u with GdUrl _ => true | _ => false end.

(** Direct and unknown links, then resolved Drive links, then m3u8 menus,
    each group in input order. *)
Definition code_order (g : string -> gd) (links : list string) : list fetch :=
  map FDirect (candidate_direct links)
  ++ map FGdrive (List.filter (resolved g) (pick Gdrive links))
  ++ map FMenu (pick M3u8 links).

End Batch.

(* ================================================================== *)
(** ** [database.py]: the [users] collection *)
(* ================================================================== *)

Module Users.

(** The [stats] sub-document; [None] is a field the document does not
    have.  [last_task_ts] is [Some None] while it holds [null]; times are
    timestamps. *)
Record stats := {
  last_reset : option string;
  daily_tasks : option Z;
  daily_size_mb : option Q;
  last_task_ts : option (option Z)
}.

Record settings := {
  auto_delete_min : Z;
  lang : string;
  default_extract_mode : string;
  preferred_output : string
}.

(** A user document (its [_id] is the key of the collection). *)
Record user_doc := {
  is_premium : option bool;
  is_banned_f : option bool;
  settings_f : option settings;
  stats_f : option stats
}.

Definition users := gmap Z user_doc.

(** Python's [KeyError] when a document has no [stats]. *)
Inductive db_result (A : Type) := DbOk (a : A) | KeyError.
Arguments DbOk {A} a.
Arguments KeyError {A}.

Definition with_stats (u : user_doc) (st : stats) : user_doc :=
  {| is_premium := is_premium u; is_banned_f := is_banned_f u;
     settings_f := settings_f u; stats_f := Some st |}.

Definition new_user (auto_delete_default : Z) (today : string) : user_doc :=
  {| is_premium := Some false; is_banned_f := Some false;
     settings_f := Some {| auto_delete_min := auto_delete_default; lang := "en";
                           default_extract_mode := "full"; preferred_output := "file" |};
     stats_f := Some {| last_reset := Some today; daily_tasks := Some 0%Z;
                        daily_size_mb := Some 0%Q; last_task_ts := Some None |} |}.

Definition opt_str_eqb (o : option string) (s : string) : bool :=
  match o with Some t => String.eqb t s | None => false end.

(** [get_or_create_user(user_id)] on the day [today]
    ([datetime.date.today().isoformat()]). *)
Definition get_or_create_user (auto_delete_default : Z) (today : string)
    (user_id : Z) (db : users) : db_result user_doc * users :=
  match db !! user_id with
  | None =>
      let user := new_user auto_delete_default today in
      (DbOk user, <[user_id := user]> db)
  | Some user =>
      match stats_f user with
      | None => (KeyError, db)
      | Some st =>
          if opt_str_eqb (last_reset st) today then (DbOk user, db)
          else
            let st' := {| last_reset := Some today; daily_tasks := Some 0%Z;
                          daily_size_mb := Some 0%Q; last_task_ts := last_task_ts st |} in
            let user' := with_stats user st' in
            (DbOk user', <[user_id := user']> db)
      end
  end.

(** [update_user_stats(user_id, size_mb)] at time [now]: [$inc] (a missing
    field counts from [0]) and [$set] on an existing document; no upsert. *)
Definition update_user_stats (now : Z) (user_id : Z) (size_mb : Q) (db : users) : users :=
  match db !! user_id with
  | None => db
  | Some user =>
      let st := match stats_f user with
                | Some st => st
                | None => {| last_reset := None; daily_tasks := None;
                             daily_size_mb := None; last_task_ts := None |}
                end in
      let st' := {| last_reset := last_reset st;
                    daily_tasks := Some (default 0%Z (daily_tasks st) + 1)%Z;
                    daily_size_mb := Some (default 0%Q (daily_size_mb st) + size_mb)%Q;
                    last_task_ts := Some (Some now) |} in
      <[user_id := with_stats user st']> db
  end.

(** [set_premium] and [set_ban]: [$set] with [upsert=True]; an upserted
    document has only the [_id] and the field set. *)
Definition set_premium (user_id : Z) (value : bool) (db : users) : users :=
  match db !! user_id with
  | Some u => <[user_id := {| is_premium := Some value; is_banned_f := is_banned_f u;
                              settings_f := settings_f u; stats_f := stats_f u |}]> db
  | None => <[user_id := {| is_premium := Some value; is_banned_f := None;
                            settings_f := None; stats_f := None |}]> db
  end.

Definition set_ban (user_id : Z) (value : bool) (db : users) : users :=
  match db !! user_id with
  | Some u => <[user_id := {| is_premium := is_premium u; is_banned_f := Some value;
                              settings_f := settings_f u; stats_f := stats_f u |}]> db
  | None => <[user_id := {| is_premium := None; is_banned_f := Some value;
                            settings_f := None; stats_f := None |}]> db
  end.

(** [is_banned(user_id)]: [bool(u and u.get("is_banned"))]. *)
Definition is_banned (user_id : Z) (db : users) : bool :=
  match db !! user_id with
  | None => false
  | Some u => default false (is_banned_f u)
  end.

End Users.

(* ------------------------------------------------------------------ *)
(** * [src/bot.py]: file types, premium and captions *)
(* ------------------------------------------------------------------ *)

Module BotHelpers.
Import PyStr.

(** [VIDEO_EXT_SET] *)
Definition VIDEO_EXT_SET : list string :=
  [".mp4"; ".mkv"; ".mov"; ".avi"; ".webm"; ".ts"].

(** The suffixes tested by [is_archive_file]. *)
Definition ARCHIVE_SUFFIXES : list string :=
  [".zip"; ".rar"; ".7z"; ".tar"; ".gz"; ".tgz"; ".tar.gz"].

(** [is_archive_file(name)] *)
Definition is_archive_file (name : string) : bool :=
  let n := lower name in existsb (ends_with n) ARCHIVE_SUFFIXES.

(** [is_video_file(name)] *)
Definition is_video_file (name : string) : bool :=
  let n := lower name in existsb (ends_with n) VIDEO_EXT_SET.

Local Open Scope Q_scope.

(** A caption configuration ([user_caption_settings[user_id]]), a dict
    with the optional keys [base], [counter], [rfrom], [rto],
    [updated_at]; [None] is an absent key. *)
Record caption_cfg := {
  base : option string;
  counter : option Z;
  rfrom : option string;
  rto : option string;
  updated_at : option Q
}.

Definition empty_cfg : caption_cfg :=
  {| base := None; counter := None; rfrom := None; rto := None; updated_at := None |}.

(** [not cfg]: the dict is missing or empty. *)
Definition cfg_falsy (o : option caption_cfg) : bool :=
  match o with
  | None => true
  | Some c =>
      match base c, counter c, rfrom c, rto c, updated_at c with
      | None, None, None, None, None => true
      | _, _, _, _, _ => false
      end
  end.

(** Truth of an optional string value: present and non-empty. *)
Definition str_truthy (o : option string) : bool :=
  match o with Some s => negb (String.eqb s "") | None => false end.

(** The module-level dicts [premium_until] and [user_caption_settings]. *)
Record bot_state := {
  premium_until : gmap Z Q;
  user_caption_settings : gmap Z caption_cfg
}.

Definition set_premium_until (m : gmap Z Q) (st : bot_state) : bot_state :=
  {| premium_until := m; user_caption_settings := user_caption_settings st |}.

Definition set_captions (m : gmap Z caption_cfg) (st : bot_state) : bot_state :=
  {| premium_until := premium_until st; user_caption_settings := m |}.

(** [is_premium_user(user_id)] with [time.time() = now]. *)
Definition is_premium_user (now : Q) (user_id : Z) (st : bot_state) : bool * bot_state :=
  match premium_until st !! user_id with
  | None => (false, st)
  | Some t =>
      if Qeq_bool t 0 then (false, st)
      else if Progress.qlt t now
           then (false, set_premium_until (delete user_id (premium_until st)) st)
           else (true, st)
  end.

(** [premium_cmd]'s update, after parsing: [days <= 0] means [10]. *)
Definition grant_premium (now : Q) (target_id days : Z) (st : bot_state) : bot_state :=
  let days := if (days <=? 0)%Z then 10%Z else days in
  set_premium_until (<[target_id := now + inject_Z (days * 86400)]> (premium_until st)) st.

(** [get_caption_cfg(user_id)]: [now] is its own [time.time()], [tp] the
    one read by [is_premium_user]. *)
Definition get_caption_cfg (now tp : Q) (user_id : Z) (st : bot_state)
    : option caption_cfg * bot_state :=
  let ocfg := user_caption_settings st !! user_id in
  if cfg_falsy ocfg then (None, st)
  else
    match ocfg with
    | None => (None, st)
    | Some cfg =>
        let '(prem, st1) := is_premium_user tp user_id st in
        if (negb prem && Progress.qlt 86400 (now - default 0 (updated_at cfg)))%bool
        then (None, set_captions (delete user_id (user_caption_settings st1)) st1)
        else (Some cfg, st1)
    end.

(** [format(n, "03d")]: zero padding to width 3, the sign counted. *)
Definition pad0 (w : nat) (s : string) : string :=
  String.append (String.concat "" (repeat "0" (w - String.length s))) s.

Definition fmt03 (n : Z) : string :=
  if (n <? 0)%Z then String.append "-" (pad0 2 (py_str_int (- n)))
  else pad0 3 (py_str_int n).

(** [s.replace(old, new)]: every non-overlapping occurrence, left to
    right; an empty [old] matches before each character and at the end. *)
Fixpoint replace_fuel (fuel : nat) (old new s : string) : string :=
  match fuel with
  | O => s
  | S f =>
      match s with
      | EmptyString => EmptyString
      | String c s' =>
          if String.prefix old s
          then String.append new
                 (replace_fuel f old new
                    (String.substring (String.length old) (String.length s - String.length old) s))
          else String c (replace_fuel f old new s')
      end
  end.

Fixpoint insert_everywhere (new s : string) : string :=
  match s with
  | EmptyString => new
  | String c s' => String.append new (String c (insert_everywhere new s'))
  end.

Definition py_replace (s old new : string) : string :=
  if String.eqb old "" then insert_everywhere new s
  else replace_fuel (String.length s) old new s.

(** [build_caption(user_id, default_caption)]: [now] and [tp] are the
    clock readings of [get_caption_cfg], [tu] the one stored in
    [updated_at]. *)
Definition build_caption (now tp tu : Q) (user_id : Z) (default_caption : string)
    (st : bot_state) : string * bot_state :=
  let '(ocfg, st1) := get_caption_cfg now tp user_id st in
  if cfg_falsy ocfg then (default_caption, st1)
  else
    match ocfg with
    | None => (default_caption, st1)
    | Some cfg =>
        let '(caption, cfg1) :=
          match base cfg with
          | Some b =>
              if str_truthy (Some b) then
                let c := (default 0 (counter cfg) + 1)%Z in
                (String.append (fmt03 c) (String.append " " b),
                 {| base := base cfg; counter := Some c; rfrom := rfrom cfg;
                    rto := rto cfg; updated_at := updated_at cfg |})
              else (default_caption, cfg)
          | None => (default_caption, cfg)
          end in
        let caption :=
          match rfrom cfg1, rto cfg1 with
          | Some a, Some b =>
              if (str_truthy (Some a) && str_truthy (Some b))%bool
              then py_replace caption a b else caption
          | _, _ => caption
          end in
        let cfg2 := {| base := base cfg1; counter := counter cfg1; rfrom := rfrom cfg1;
                       rto := rto cfg1; updated_at := Some tu |} in
        (caption, set_captions (<[user_id := cfg2]> (user_caption_settings st1)) st1)
    end.

(** The settings reply for [action == "caption"] with a non-empty text. *)
Definition set_caption_base (now : Q) (user_id : Z) (txt : string) (st : bot_state)
    : bot_state :=
  let cfg := if cfg_falsy (user_caption_settings st !! user_id) then empty_cfg
             else default empty_cfg (user_caption_settings st !! user_id) in
  let cfg' := {| base := Some txt; counter := Some 0%Z; rfrom := rfrom cfg;
                 rto := rto cfg; updated_at := Some now |} in
  set_captions (<[user_id := cfg']> (user_caption_settings st)) st.

(** The settings reply for [action == "replace"], once the text has
    been split into a non-empty [old] and a [new]. *)
Definition set_replace_rule (now : Q) (user_id : Z) (old new : string) (st : bot_state)
    : bot_state :=
  let cfg := if cfg_falsy (user_caption_settings st !! user_id) then empty_cfg
             else default empty_cfg (user_caption_settings st !! user_id) in
  let cfg' := {| base := base cfg; counter := counter cfg; rfrom := Some old;
                 rto := Some new; updated_at := Some now |} in
  set_captions (<[user_id := cfg']> (user_caption_settings st)) st.

(** Successive [build_caption] calls, one clock triple per call. *)
Fixpoint run_captions (user_id : Z) (default_caption : string)
    (clock : list (Q * Q * Q)) (st : bot_state) : list string * bot_state :=
  match clock with
  | [] => ([], st)
  | (now, tp, tu) :: rest =>
      let '(c, st1) := build_caption now tp tu user_id default_caption st in
      let '(cs, st2) := run_captions user_id default_caption rest st1 in
      (c :: cs, st2)
  end.

End BotHelpers.

(* ------------------------------------------------------------------ *)
(** * [posixpath]: [basename], [dirname], [join] *)
(* ------------------------------------------------------------------ *)

Module Posix.
Import PyStr.

Definition is_slash (c : ascii) : bool := Ascii.eqb c "/".

(** The text after the last ['/'] ([cur] is the current segment). *)
Fixpoint seg_go (cur s : string) : string :=
  match s with
  | EmptyString => cur
  | String c s' =>
      if is_slash c then seg_go EmptyString s' else seg_go (cur +:+ String c EmptyString) s'
  end.

(** [os.path.basename(p)], which is also [p.rsplit("/", 1)[-1]]. *)
Definition basename (p : string) : string := seg_go EmptyString p.

(** The text up to and including the last ['/']. *)
Fixpoint head_go (acc cur s : string) : string :=
  match s with
  | EmptyString => acc
  | String c s' =>
      if is_slash c then head_go (acc +:+ cur +:+ "/") EmptyString s'
      else head_go acc (cur +:+ String c EmptyString) s'
  end.

(** [os.path.dirname(p)]: the head, without its trailing slashes unless
    it is made of slashes only. *)
Definition dirname (p : string) : string :=
  let head := head_go EmptyString EmptyString p in
  if (negb (String.eqb head "") && negb (all_chars is_slash head))%bool
  then rstrip_by is_slash head else head.

(** [os.path.join(a, b)] *)
Definition join (a b : string) : string :=
  if String.prefix "/" b then b
  else if (String.eqb a "" || ends_with a "/")%bool then a +:+ b
  else a +:+ "/" +:+ b.

End Posix.

(* ------------------------------------------------------------------ *)
(** * [src/utils/m3u8_tools.py] and the m3u8 menu of [src/bot.py] *)
(* ------------------------------------------------------------------ *)

Module M3u8Tools.
Import PyStr.

(** What [m3u8.loads] gives for one variant of a master playlist: its
    [stream_info] (an object, truthy when present), with [resolution]
    (a pair, truthy when present) and [bandwidth] (an int, falsy when
    [0] or absent), and its [absolute_uri]. *)
Record stream_info := { resolution : option (Z * Z); bandwidth : option Z }.
Record variant := { stream_info_f : option stream_info; absolute_uri : string }.

Definition variant_name (pl : variant) : string :=
  match stream_info_f pl with
  | None => "Variant"
  | Some si =>
      match resolution si with
      | Some (_, h) => py_str_int h +:+ "p"
      | None =>
          match bandwidth si with
          | Some b => if (b =? 0)%Z then "Variant" else py_str_int (b / 1000) +:+ "kbps"
          | None => "Variant"
          end
      end
  end.

(** [get_m3u8_variants(url)] once the playlist has been fetched and
    parsed: [playlists] is [playlist.playlists]; an entry is
    [(name, url)]. *)
Definition get_m3u8_variants (url : string) (playlists : list variant)
    : list (string * string) :=
  match playlists with
  | [] => [("Auto", url)]
  | _ => map (fun pl => (variant_name pl, absolute_uri pl)) playlists
  end.

(** [offer_m3u8_quality_menu]: [base_name], later used for the file
    [{base_name}_{name}.mp4] and the caption [{base_name} [{name}]]. *)
Definition m3u8_base_name (url : string) : string :=
  let base_raw := before "#" (before "?" url) in
  let b := Posix.basename base_raw in
  let base_name := if String.eqb b "" then "stream" else b in
  if ends_with base_name ".m3u8"
  then String.substring 0 (String.length base_name - 6) base_name
  else base_name.

End M3u8Tools.

(* ------------------------------------------------------------------ *)
(** * [src/utils/http_downloader.py]: the name of the saved file *)
(* ------------------------------------------------------------------ *)

Module Downloader.
Import PyStr LinkParser.

Definition dquote : ascii := ascii_of_nat 34.
Definition squote : ascii := ascii_of_nat 39.

(** A literal of the pattern, compared case-insensitively ([re.I]). *)
Fixpoint take_lit (w s : string) : option string :=
  match w with
  | EmptyString => Some s
  | String lc w' =>
      match take_ci lc s with
      | Some (_, s') => take_lit w' s'
      | None => None
      end
  end.

(** The longest prefix whose characters satisfy [p], and the rest. *)
Fixpoint span_by (p : ascii -> bool) (s : string) : string * string :=
  match s with
  | EmptyString => (EmptyString, EmptyString)
  | String c s' =>
      if p c then let '(w, r) := span_by p s' in (String c w, r)
      else (EmptyString, s)
  end.

Fixpoint str_last (s : string) : option ascii :=
  match s with
  | EmptyString => None
  | String c EmptyString => Some c
  | String _ s' => str_last s'
  end.

Definition not_dq_semi (c : ascii) : bool :=
  negb (Ascii.eqb c dquote || Ascii.eqb c ";").
Definition not_squote (c : ascii) : bool := negb (Ascii.eqb c squote).
Definition not_semi (c : ascii) : bool := negb (Ascii.eqb c ";").

(** [filename\*\s*=\s*[^']*'[^']*'(?P<fn>[^;]+)] anchored at the start of
    [s]: the group [fn].  The spaces after [=] are also matched by
    [[^']*], so only the two quotes delimit. *)
Definition cd_star_at (s : string) : option string :=
  match take_lit "filename*" s with
  | None => None
  | Some r1 =>
      match lstrip_by is_space r1 with
      | String e r2 =>
          if Ascii.eqb e "=" then
            match snd (span_by not_squote r2) with
            | String _ r3 =>
                match snd (span_by not_squote r3) with
                | String _ r4 =>
                    let w := fst (span_by not_semi r4) in
                    if String.eqb w "" then None else Some w
                | EmptyString => None
                end
            | EmptyString => None
            end
          else None
      | EmptyString => None
      end
  end.

(** [filename\s*=\s*Q?(?P<fn>[^Q;]+)Q?], where [Q] is the double quote,
    anchored at the start of [s]: the group [fn].  When neither [fn] after the greedy spaces and quote nor
    [fn] without the quote is possible, backtracking gives the last of the
    spaces after [=] back to [fn]. *)
Definition cd_plain_at (s : string) : option string :=
  match take_lit "filename" s with
  | None => None
  | Some r1 =>
      match lstrip_by is_space r1 with
      | String e r3 =>
          if Ascii.eqb e "=" then
            let '(sp, r4) := span_by is_space r3 in
            let direct :=
              match r4 with
              | String c r5 =>
                  let w := fst (span_by not_dq_semi (if Ascii.eqb c dquote then r5 else r4)) in
                  if String.eqb w "" then None else Some w
              | EmptyString => None
              end in
            match direct with
            | Some w => Some w
            | None => option_map (fun c => String c EmptyString) (str_last sp)
            end
          else None
      | EmptyString => None
      end
  end.

(** [re.search]: the first position where the anchored match succeeds. *)
Fixpoint search (f : string -> option string) (s : string) : option string :=
  match f s with
  | Some w => Some w
  | None => match s with EmptyString => None | String _ s' => search f s' end
  end.

(** [.strip(Q)] for the double quote [Q] *)
Definition strip_dq (s : string) : string := strip_by (fun c => Ascii.eqb c dquote) s.

Section Download.
(** [urllib.parse.unquote], left abstract. *)
Variable unquote : string -> string.

(** [_filename_from_cd(cd)] *)
Definition filename_from_cd (cd : string) : option string :=
  if String.eqb cd "" then None
  else
    match search cd_star_at cd with
    | Some fn => Some (strip_dq (strip (unquote fn)))
    | None =>
        match search cd_plain_at cd with
        | Some fn => Some (strip_dq (strip fn))
        | None => None
        end
    end.

Definition str_or (a b : string) : string := if String.eqb a "" then b else a.

(** The base file name chosen by [download_file]. *)
Definition choose_fname (cd url dest_path : string) (file_name : option string) : string :=
  let fallback :=
    let base_from_url := Posix.basename (before "#" (before "?" url)) in
    if negb (String.eqb base_from_url "") then base_from_url
    else str_or (default "" file_name) (str_or (Posix.basename dest_path) "file") in
  match filename_from_cd cd with
  | Some h => if negb (String.eqb h "") then h else fallback
  | None => fallback
  end.

(** [final_path = os.path.join(dest_dir, fname)] with
    [dest_dir = os.path.dirname(dest_path) or "."]. *)
Definition final_path (cd url dest_path : string) (file_name : option string) : string :=
  Posix.join (str_or (Posix.dirname dest_path) ".") (choose_fname cd url dest_path file_name).

End Download.

End Downloader.

(* ================================================================== *)
(** ** Facts about the string helpers and the link parser *)
(* ================================================================== *)

Module LinkFacts.
Import PyStr LinkParser.

(** Character facts, checked over the whole ASCII table. *)
Ltac ascii_cases c :=
  destruct c as [[] [] [] [] [] [] [] []]; vm_compute; try reflexivity;
  try discriminate; try congruence.

Lemma lower_char_space c : is_space c = true -> lower_char c = c.
Proof. ascii_cases c. Qed.

Lemma lower_char_idem c : lower_char (lower_char c) = lower_char c.
Proof. ascii_cases c. Qed.

Lemma is_space_lower_char c : is_space (lower_char c) = is_space c.
Proof. ascii_cases c. Qed.

Lemma no_qf_lower_char c : no_qf (lower_char c) = no_qf c.
Proof. ascii_cases c. Qed.

Lemma ieq_space c x : is_space c = true -> is_space x = false -> ieq c x = false.
Proof.
  intros Hc Hx. unfold ieq. rewrite lower_char_space by exact Hc.
  destruct (Ascii.eqb c x) eqn:E; [|reflexivity].
  apply Ascii.eqb_eq in E. subst. congruence.
Qed.

Lemma app_assoc_str (a b c : string) : a +:+ (b +:+ c) = (a +:+ b) +:+ c.
Proof. induction a as [|x a IH]; simpl; [reflexivity|now rewrite IH]. Qed.

Lemma app_nil_str (a : string) : a +:+ EmptyString = a.
Proof. induction a as [|x a IH]; simpl; [reflexivity|now rewrite IH]. Qed.

Lemma lower_app a b : lower (a +:+ b) = lower a +:+ lower b.
Proof. induction a as [|x a IH]; simpl; [reflexivity|now rewrite IH]. Qed.

Lemma all_chars_app p a b :
  all_chars p (a +:+ b) = (all_chars p a && all_chars p b)%bool.
Proof. induction a as [|x a IH]; simpl; [reflexivity|rewrite IH; now destruct (p x)]. Qed.

Lemma all_chars_no_qf_lower a : all_chars no_qf (lower a) = all_chars no_qf a.
Proof. induction a as [|x a IH]; simpl; [reflexivity|now rewrite no_qf_lower_char, IH]. Qed.

(** Leading strip stops at the first kept character. *)
Lemma lstrip_app_ex (p : ascii -> bool) a c y :
  p c = false ->
  exists X, lstrip_by p (a +:+ String c y) = X +:+ String c y /\
            (forall q, all_chars q a = true -> all_chars q X = true).
Proof.
  intros Hc. induction a as [|d a IH]; simpl.
  - exists EmptyString. rewrite Hc. split; reflexivity.
  - destruct (p d).
    + destruct IH as [X [HX Hq]]. exists X. split; [exact HX|].
      intros q Hd. apply Hq. apply andb_prop in Hd. apply Hd.
    + exists (String d a). split; [reflexivity|]. intros q Hd. exact Hd.
Qed.

Lemma rstrip_nil_iff p b : rstrip_by p b = EmptyString <-> all_chars p b = true.
Proof.
  induction b as [|c b IH]; simpl; [tauto|].
  destruct (rstrip_by p b) eqn:E.
  - destruct (p c); simpl; split; intros H; try reflexivity; try discriminate.
    + apply IH. reflexivity.
  - split; intros H; [discriminate|].
    apply andb_prop in H. destruct H as [_ H]. apply IH in H. discriminate.
Qed.

Lemma rstrip_app p a b :
  rstrip_by p (a +:+ b) =
  if all_chars p b then rstrip_by p a else a +:+ rstrip_by p b.
Proof.
  induction a as [|c a IH]; simpl.
  - destruct (all_chars p b) eqn:E; [|reflexivity].
    apply rstrip_nil_iff. exact E.
  - rewrite IH. destruct (all_chars p b) eqn:E; [reflexivity|].
    destruct (a +:+ rstrip_by p b) eqn:E2; [|reflexivity].
    destruct a; [|discriminate]. simpl in E2.
    apply rstrip_nil_iff in E2. congruence.
Qed.

Lemma rstrip_keep p c x :
  p c = false -> exists x', rstrip_by p (String c x) = String c x'.
Proof.
  intros Hc. simpl. destruct (rstrip_by p x); [rewrite Hc|]; eauto.
Qed.

Lemma rstrip_id p x :
  all_chars (fun c => negb (p c)) x = true -> rstrip_by p x = x.
Proof.
  induction x as [|c x IH]; simpl; [reflexivity|].
  intros H. apply andb_prop in H. destruct H as [Hc Hx].
  rewrite (IH Hx). destruct x; [|reflexivity].
  destruct (p c); [discriminate|reflexivity].
Qed.

Lemma before_app c a b :
  all_chars (fun d => negb (Ascii.eqb d c)) a = true ->
  before c (a +:+ b) = a +:+ before c b.
Proof.
  induction a as [|d a IH]; simpl; [reflexivity|].
  intros H. apply andb_prop in H. destruct H as [Hd Ha].
  destruct (Ascii.eqb d c); [discriminate|]. now rewrite IH.
Qed.

Lemma all_chars_impl (p q : ascii -> bool) s :
  (forall c, p c = true -> q c = true) -> all_chars p s = true -> all_chars q s = true.
Proof.
  intros Hpq. induction s as [|c s IH]; simpl; [reflexivity|].
  intros H. apply andb_prop in H. destruct H as [Hc Hs].
  rewrite (Hpq c Hc). simpl. now apply IH.
Qed.

Lemma no_qf_no_q c : no_qf c = true -> negb (Ascii.eqb c "?") = true.
Proof. unfold no_qf. destruct (Ascii.eqb c "?"); simpl; congruence. Qed.

Lemma no_qf_no_h c : no_qf c = true -> negb (Ascii.eqb c "#") = true.
Proof.
  unfold no_qf. destruct (Ascii.eqb c "?"), (Ascii.eqb c "#"); simpl; congruence.
Qed.

Lemma before_cons_eq c d s : Ascii.eqb d c = true -> before c (String d s) = EmptyString.
Proof. intros H. simpl. now rewrite H. Qed.

Lemma before_cons_neq c d s :
  Ascii.eqb d c = false -> before c (String d s) = String d (before c s).
Proof. intros H. simpl. now rewrite H. Qed.

(** The code's "base": the URL cut at its first [?] or [#]. *)
Lemma base_of_cut X R :
  all_chars no_qf X = true ->
  (R = EmptyString \/ exists c R', R = String c R' /\ no_qf c = false) ->
  base_of (X +:+ R) = X.
Proof.
  intros HX HR. unfold base_of.
  rewrite before_app by (eapply all_chars_impl; [apply no_qf_no_q|exact HX]).
  rewrite before_app by (eapply all_chars_impl; [apply no_qf_no_h|exact HX]).
  destruct HR as [->|[c [R' [-> Hc]]]]; [now rewrite app_nil_str|].
  unfold no_qf in Hc.
  destruct (Ascii.eqb c "?") eqn:Eq.
  - rewrite before_cons_eq by exact Eq. simpl. now rewrite app_nil_str.
  - rewrite before_cons_neq by exact Eq.
    destruct (Ascii.eqb c "#") eqn:Eh; [|discriminate].
    rewrite before_cons_eq by exact Eh. now rewrite app_nil_str.
Qed.

Lemma ends_with_app a suf : ends_with (a +:+ suf) suf = true.
Proof.
  induction a as [|c a IH]; cbn [String.append].
  - destruct suf; [reflexivity|]. cbn [ends_with]. now rewrite String.eqb_refl.
  - cbn [ends_with]. rewrite IH. apply orb_true_r.
Qed.

(** The extension table: lowercase, no spaces, no delimiters, non-empty. *)
Definition ext_ok (ext : string) : bool :=
  (String.eqb (lower ext) ext && all_chars (fun c => negb (is_space c)) ext
   && all_chars no_qf ext
   && match ext with String c _ => negb (is_space c) | EmptyString => false end)%bool.

Lemma file_ext_ok ext : In ext FILE_EXT -> ext_ok ext = true.
Proof.
  intros H. assert (Hall : forallb ext_ok FILE_EXT = true) by reflexivity.
  rewrite forallb_forall in Hall. now apply Hall.
Qed.

Lemma all_chars_lower q s :
  (forall c, q (lower_char c) = q c) -> all_chars q (lower s) = all_chars q s.
Proof.
  intros Hq. induction s as [|c s IH]; simpl; [reflexivity|]. now rewrite Hq, IH.
Qed.

(** A query/fragment tail keeps its shape under [lower]. *)
Lemma tail_lower T :
  (T = EmptyString \/ exists c T', T = String c T' /\ no_qf c = false) ->
  (lower T = EmptyString \/ exists c T', lower T = String c T' /\ no_qf c = false).
Proof.
  intros [->|[c [T' [-> Hc]]]]; [now left|right].
  exists (lower_char c), (lower T'). split; [reflexivity|].
  now rewrite no_qf_lower_char.
Qed.

(** Stripping [p ++ e ++ r], where [e] has no spaces and starts the path's
    last characters and [r] is empty or a query/fragment, only trims [p]
    on the left and [r] on the right. *)
Lemma strip_shape p e r :
  all_chars no_qf p = true ->
  e <> EmptyString ->
  all_chars (fun c => negb (is_space c)) e = true ->
  (r = EmptyString \/ exists c r', r = String c r' /\ no_qf c = false) ->
  exists X T, strip (p +:+ e +:+ r) = X +:+ e +:+ T /\ all_chars no_qf X = true /\
    (T = EmptyString \/ exists c T', T = String c T' /\ no_qf c = false).
Proof.
  intros Hp Hne He Hr. destruct e as [|c0 e0]; [congruence|].
  simpl in He. apply andb_prop in He. destruct He as [Hc0 He0].
  destruct (lstrip_app_ex is_space p c0 (e0 +:+ r)) as [X [HX HXq]].
  { destruct (is_space c0); [discriminate|reflexivity]. }
  unfold strip, strip_by.
  change (p +:+ String c0 e0 +:+ r) with (p +:+ String c0 (e0 +:+ r)).
  rewrite HX. change (String c0 (e0 +:+ r)) with (String c0 e0 +:+ r).
  exists X.
  rewrite (app_assoc_str X (String c0 e0) r).
  rewrite rstrip_app.
  destruct (all_chars is_space r) eqn:Er.
  - exists EmptyString. rewrite rstrip_app.
    replace (all_chars is_space (String c0 e0)) with false.
    2:{ simpl. destruct (is_space c0); [discriminate|reflexivity]. }
    rewrite (rstrip_id is_space (String c0 e0)) by (simpl; rewrite Hc0; exact He0).
    rewrite app_nil_str. repeat split; [now apply HXq|now left].
  - destruct Hr as [->|[c [r' [-> Hc]]]]; [discriminate|].
    destruct (rstrip_keep is_space c r') as [r'' Hr''].
    { destruct (is_space c) eqn:Es; [|reflexivity].
      revert Hc Es. clear. intros. ascii_cases c. }
    exists (String c r''). rewrite Hr''. rewrite <- app_assoc_str.
    repeat split; [now apply HXq|]. right. eauto.
Qed.

(** Claim C7: every URL whose path, cut at the first [?] or [#], ends in
    one of the extensions of [FILE_EXT] (in any letter case) is never
    classified [Unknown]; [classify_link] itself is total, its result
    type has exactly the five categories.  The URL is [p ++ e ++ r]: [p]
    holds no [?] or [#], [lower e] is the extension, [r] is empty or a
    query/fragment. *)
Theorem classify_known_ext_never_unknown (p e r ext : string) :
  In ext FILE_EXT -> lower e = ext -> all_chars no_qf p = true ->
  (r = EmptyString \/ exists c r', r = String c r' /\ no_qf c = false) ->
  classify_link (p +:+ e +:+ r) <> Unknown.
Proof.
  intros Hin He Hp Hr.
  pose proof (file_ext_ok ext Hin) as Hok. unfold ext_ok in Hok.
  apply andb_prop in Hok as [Hok Hhd]. apply andb_prop in Hok as [Hok Hqf].
  apply andb_prop in Hok as [_ Hsp].
  assert (Hne : e <> EmptyString).
  { intros ->. simpl in He. subst ext. discriminate Hhd. }
  assert (Hesp : all_chars (fun c => negb (is_space c)) e = true).
  { rewrite <- (all_chars_lower _ e) by (intros; now rewrite is_space_lower_char).
    now rewrite He. }
  destruct (strip_shape p e r Hp Hne Hesp Hr) as [X [T [Hs [HX HT]]]].
  unfold classify_link. rewrite Hs, !lower_app, He.
  assert (Hbase : base_of (lower X +:+ ext +:+ lower T) = lower X +:+ ext).
  { rewrite app_assoc_str. apply base_of_cut.
    - now rewrite all_chars_app, all_chars_no_qf_lower, HX, Hqf.
    - now apply tail_lower. }
  destruct (contains _ "drive.google.com"); [discriminate|].
  destruct (_ || _)%bool; [discriminate|].
  cbv zeta. rewrite Hbase.
  destruct (ends_with _ ".m3u8"); [discriminate|].
  replace (existsb _ FILE_EXT) with true; [discriminate|].
  symmetry. apply existsb_exists. exists ext. split; [exact Hin|apply ends_with_app].
Qed.

Lemma classify_known_ext_never_unknown_witness :
  classify_link ("https://cdn.example.org/films/clip" +:+ ".MP4" +:+ "?token=1")
  <> Unknown.
Proof.
  apply (classify_known_ext_never_unknown
           "https://cdn.example.org/films/clip" ".MP4" "?token=1" ".mp4").
  - now left.
  - reflexivity.
  - reflexivity.
  - right. exists "?"%char, "token=1". split; reflexivity.
Defined.

(** Claim C6 (as stated, refuted): the cloud-drive and messaging-platform
    tests are not host tests.  A URL on the host [example.com] whose path
    mentions [drive.google.com] is classified cloud-drive, and one on the
    host [cat.me] is classified as the messaging platform's own link. *)
Lemma classify_not_host_based :
  classify_link "https://example.com/drive.google.com.mp4" = Gdrive /\
  contains (url_host "https://example.com/drive.google.com.mp4") "drive.google.com" = false /\
  classify_link "https://cat.me/video.mp4" = Telegram /\
  url_host "https://cat.me/video.mp4" = "cat.me".
Proof. vm_compute. repeat split. Qed.

(** Claim C6 (amended): [classify_link] decides by substring tests on the
    whole stripped, lowercased URL, in the precedence order (1)-(5):
    cloud-drive iff it contains [drive.google.com] anywhere; otherwise the
    messaging platform iff it contains [t.me/] or [telegram.me/] anywhere;
    otherwise the [.m3u8] and extension tests look only at the URL cut at
    its first [?] or [#] (query and fragment ignored). *)
Theorem classify_link_whole_url (url : string) :
  let u_low := lower (strip url) in
  let base := base_of u_low in
  let gd := contains u_low "drive.google.com" in
  let tg := (contains u_low "t.me/" || contains u_low "telegram.me/")%bool in
  (classify_link url = Gdrive <-> gd = true) /\
  (classify_link url = Telegram <-> gd = false /\ tg = true) /\
  (classify_link url = M3u8 <-> gd = false /\ tg = false /\ ends_with base ".m3u8" = true) /\
  (classify_link url = Direct <->
     gd = false /\ tg = false /\ ends_with base ".m3u8" = false /\
     exists ext, In ext FILE_EXT /\ ends_with base ext = true) /\
  (classify_link url = Unknown <->
     gd = false /\ tg = false /\ ends_with base ".m3u8" = false /\
     forall ext, In ext FILE_EXT -> ends_with base ext = false).
Proof.
  intros u_low base gd tg. unfold classify_link. fold u_low. fold gd. fold tg.
  cbv zeta. fold base.
  destruct gd, tg, (ends_with base ".m3u8") eqn:Em;
    destruct (existsb (fun ext => ends_with base ext) FILE_EXT) eqn:Ex;
    pose proof (existsb_exists (fun ext => ends_with base ext) FILE_EXT) as HE;
    rewrite Ex in HE;
    repeat split; intros; try discriminate; try reflexivity;
    repeat match goal with H : _ /\ _ |- _ => destruct H end;
    try discriminate; try (apply HE; reflexivity); try tauto;
    try match goal with
    | H : exists x, In x FILE_EXT /\ _ |- _ => apply HE in H; discriminate
    | H : forall ext, In ext FILE_EXT -> _ |- _ =>
        destruct HE as [HE _]; destruct (HE eq_refl) as [x [Hin Hend]];
        rewrite (H x Hin) in Hend; discriminate
    | |- forall ext, In ext FILE_EXT -> _ =>
        let x := fresh "x" in let Hin := fresh "Hin" in
        intros x Hin; destruct (ends_with base x) eqn:Eb; [|reflexivity];
        assert (false = true) by (apply HE; eauto); discriminate
    | Hin : In ?x FILE_EXT |- ends_with base ?x = false =>
        destruct (ends_with base x) eqn:Eb; [|reflexivity];
        assert (false = true) by (apply HE; eauto); discriminate
    end.
Qed.

(** *** Deduplication in [extract_links_from_folder] *)

Lemma kind_eqb_true a b : kind_eqb a b = true <-> a = b.
Proof. destruct a, b; simpl; split; congruence. Qed.

Lemma mem_str_app x l1 l2 : mem_str x (l1 ++ l2) = (mem_str x l1 || mem_str x l2)%bool.
Proof. unfold mem_str. apply existsb_app. Qed.

Lemma mem_str_self x l : mem_str x (l ++ [x]) = true.
Proof.
  rewrite mem_str_app. unfold mem_str at 2. simpl.
  rewrite String.eqb_refl. apply orb_true_r.
Qed.

Lemma mem_str_single x y : mem_str y [x] = String.eqb y x.
Proof. unfold mem_str. simpl. apply orb_false_r. Qed.

Lemma first_seen_from_app seen l1 l2 :
  first_seen_from seen (l1 ++ l2) =
  first_seen_from seen l1 ++ first_seen_from (seen ++ first_seen_from seen l1) l2.
Proof.
  revert seen. induction l1 as [|x l1 IH]; intros seen; simpl.
  - now rewrite app_nil_r.
  - destruct (mem_str x seen); [apply IH|].
    simpl. rewrite IH. now rewrite <- app_assoc.
Qed.

Lemma first_seen_from_nodup seen l :
  List.NoDup (first_seen_from seen l) /\
  (forall y, In y (first_seen_from seen l) -> mem_str y seen = false).
Proof.
  revert seen. induction l as [|x l IH]; intros seen; simpl.
  - split; [constructor|contradiction].
  - destruct (mem_str x seen) eqn:Ex; [apply IH|].
    destruct (IH (seen ++ [x])) as [Hnd Hfresh]. split.
    + constructor; [|exact Hnd].
      intros Hin. specialize (Hfresh x Hin). now rewrite mem_str_self in Hfresh.
    + intros y [<-|Hy]; [exact Ex|].
      specialize (Hfresh y Hy). rewrite mem_str_app in Hfresh.
      now apply orb_false_elim in Hfresh as [Hf _].
Qed.

(** Adding the URLs of one file, seen from one category. *)
Lemma fold_add_link (l : list string) (m : link_map) (k : kind) :
  fold_left add_link l m k =
  m k ++ first_seen_from (m k) (List.filter (fun u => kind_eqb (classify_link u) k) l).
Proof.
  revert m. induction l as [|x l IH]; intros m; simpl; [now rewrite app_nil_r|].
  rewrite IH. unfold add_link at 1 2.
  destruct (kind_eqb (classify_link x) k) eqn:Ek.
  - apply kind_eqb_true in Ek. rewrite Ek. simpl.
    destruct (mem_str x (m k)) eqn:Em; [reflexivity|].
    assert (kind_eqb k k = true) as ->. { now apply kind_eqb_true. }
    now rewrite <- app_assoc.
  - destruct (mem_str x (m (classify_link x))); [reflexivity|]. cbv beta.
    destruct (kind_eqb k (classify_link x)) eqn:E2; [|reflexivity].
    apply kind_eqb_true in E2. subst k.
    assert (kind_eqb (classify_link x) (classify_link x) = true) by now apply kind_eqb_true.
    congruence.
Qed.

Lemma fold_scan_file is_link_file (files : list walk_file) (m : link_map) (k : kind) :
  fold_left (scan_file is_link_file) files m k =
  m k ++ first_seen_from (m k)
           (List.filter (fun u => kind_eqb (classify_link u) k) (urls_met is_link_file files)).
Proof.
  revert m. induction files as [|f files IH]; intros m; simpl; [now rewrite app_nil_r|].
  rewrite IH. unfold urls_met. simpl. fold (urls_met is_link_file files).
  rewrite List.filter_app, first_seen_from_app, app_assoc.
  unfold scan_file. destruct (is_link_file (wf_name f)); [|simpl; now rewrite !app_nil_r].
  destruct (wf_text f) as [text|]; [|simpl; now rewrite !app_nil_r].
  now rewrite fold_add_link.
Qed.

(** *** [find_links_in_text] splits at whitespace *)

Lemma length_app_str a b : String.length (a +:+ b) = (String.length a + String.length b)%nat.
Proof. induction a as [|x a IH]; simpl; [reflexivity|now rewrite IH]. Qed.

Lemma take_ci_len lc s c s' : take_ci lc s = Some (c, s') -> String.length s = S (String.length s').
Proof.
  destruct s as [|d s]; simpl; [discriminate|].
  destruct (ieq d lc); [|discriminate]. now intros [= _ <-].
Qed.

Lemma span_len s w rest :
  span_nonspace s = (w, rest) ->
  String.length s = (String.length w + String.length rest)%nat.
Proof.
  revert w rest. induction s as [|c s IH]; intros w rest; simpl.
  - now intros [= <- <-].
  - destruct (is_space c); [now intros [= <- <-]|].
    destruct (span_nonspace s) as [w' r'] eqn:E. intros [= <- <-].
    simpl. now rewrite (IH w' r' eq_refl).
Qed.

Lemma match_at_len s m rest :
  match_at s = Some (m, rest) -> (String.length rest < String.length s)%nat.
Proof.
  unfold match_at.
  destruct (take_ci "h" s) as [[h s1]|] eqn:E1; [|discriminate].
  destruct (take_ci "t" s1) as [[t1 s2]|] eqn:E2; [|discriminate].
  destruct (take_ci "t" s2) as [[t2 s3]|] eqn:E3; [|discriminate].
  destruct (take_ci "p" s3) as [[p r]|] eqn:E4; [|discriminate].
  apply take_ci_len in E1, E2, E3, E4.
  assert (exists sc r1, (match take_ci "s" r with
                         | Some (c, r') => (String c EmptyString, r')
                         | None => (EmptyString, r)
                         end) = (sc, r1) /\ (String.length r1 <= String.length r)%nat)
    as [sc [r1 [-> Hr1]]].
  { destruct (take_ci "s" r) as [[c r']|] eqn:E5.
    - apply take_ci_len in E5. exists (String c EmptyString), r'. split; [reflexivity|lia].
    - exists EmptyString, r. split; [reflexivity|lia]. }
  destruct (take_ci ":" r1) as [[x r2]|] eqn:E6; [|discriminate].
  destruct (take_ci "/" r2) as [[y r3]|] eqn:E7; [|discriminate].
  destruct (take_ci "/" r3) as [[z r4]|] eqn:E8; [|discriminate].
  apply take_ci_len in E6, E7, E8.
  destruct (span_nonspace r4) as [w rest'] eqn:E9. apply span_len in E9.
  destruct w; [discriminate|]. intros [= _ <-]. lia.
Qed.

Lemma scan_fuel n1 n2 s :
  (String.length s <= n1)%nat -> (String.length s <= n2)%nat -> scan n1 s = scan n2 s.
Proof.
  revert n2 s. induction n1 as [|n1 IH]; intros n2 s H1 H2.
  - destruct s; [destruct n2; reflexivity|simpl in H1; lia].
  - destruct n2 as [|n2]; [destruct s; [reflexivity|simpl in H2; lia]|].
    destruct s as [|c s]; [reflexivity|]. simpl.
    destruct (match_at (String c s)) as [[m rest]|] eqn:E.
    + apply match_at_len in E. simpl in E. f_equal. apply IH; simpl in *; lia.
    + apply IH; simpl in *; lia.
Qed.

Lemma take_ci_app lc a sp t :
  ieq sp lc = false ->
  take_ci lc (a +:+ String sp t) =
  match take_ci lc a with
  | Some (c, a') => Some (c, a' +:+ String sp t)
  | None => None
  end.
Proof.
  intros H. destruct a as [|c a]; simpl; [now rewrite H|].
  now destruct (ieq c lc).
Qed.

Lemma span_app r sp t :
  is_space sp = true ->
  span_nonspace (r +:+ String sp t) =
  let '(w, rest) := span_nonspace r in (w, rest +:+ String sp t).
Proof.
  intros Hsp. induction r as [|c r IH]; simpl; [now rewrite Hsp|].
  destruct (is_space c); [reflexivity|].
  rewrite IH. now destruct (span_nonspace r).
Qed.

Ltac take_app Hsp :=
  rewrite take_ci_app by (apply ieq_space; [exact Hsp|reflexivity]).

Lemma match_at_app a sp t :
  is_space sp = true ->
  match_at (a +:+ String sp t) =
  match match_at a with
  | Some (m, rest) => Some (m, rest +:+ String sp t)
  | None => None
  end.
Proof.
  intros Hsp. unfold match_at.
  take_app Hsp. destruct (take_ci "h" a) as [[h s1]|]; [|reflexivity].
  take_app Hsp. destruct (take_ci "t" s1) as [[t1 s2]|]; [|reflexivity].
  take_app Hsp. destruct (take_ci "t" s2) as [[t2 s3]|]; [|reflexivity].
  take_app Hsp. destruct (take_ci "p" s3) as [[p r]|]; [|reflexivity].
  take_app Hsp.
  assert (exists sc r1,
            (match take_ci "s" r with
             | Some (c, r') => (String c EmptyString, r')
             | None => (EmptyString, r)
             end) = (sc, r1) /\
            (match match take_ci "s" r with
                   | Some (c, a') => Some (c, a' +:+ String sp t)
                   | None => None
                   end with
             | Some (c, r') => (String c EmptyString, r')
             | None => (EmptyString, r +:+ String sp t)
             end) = (sc, r1 +:+ String sp t)) as [sc [r1 [-> ->]]].
  { destruct (take_ci "s" r) as [[c r']|]; eauto. }
  take_app Hsp. destruct (take_ci ":" r1) as [[x r2]|]; [|reflexivity].
  take_app Hsp. destruct (take_ci "/" r2) as [[y r3]|]; [|reflexivity].
  take_app Hsp. destruct (take_ci "/" r3) as [[z r4]|]; [|reflexivity].
  rewrite span_app by exact Hsp.
  destruct (span_nonspace r4) as [w rest]. destruct w; reflexivity.
Qed.

Lemma find_links_app t1 sp t2 :
  is_space sp = true ->
  find_links_in_text (t1 +:+ String sp t2) =
  find_links_in_text t1 ++ find_links_in_text t2.
Proof.
  intros Hsp. unfold find_links_in_text.
  enough (H : forall n t1, (String.length t1 <= n)%nat ->
            scan (String.length (t1 +:+ String sp t2)) (t1 +:+ String sp t2) =
            scan (String.length t1) t1 ++ scan (String.length t2) t2)
    by (apply (H (String.length t1) t1); lia).
  clear t1. intros n. induction n as [n IH] using lt_wf_ind. intros t1 Hle.
  rewrite length_app_str. simpl String.length.
  destruct t1 as [|c t1'].
  - simpl. replace (match_at (String sp t2)) with (@None (string * string)).
    + reflexivity.
    + unfold match_at. simpl. now rewrite (ieq_space sp "h" Hsp eq_refl).
  - change (String c t1' +:+ String sp t2) with (String c (t1' +:+ String sp t2)).
    replace (String.length (String c t1') + S (String.length t2))%nat
      with (S (String.length (t1' +:+ String sp t2)))
      by (rewrite length_app_str; simpl; lia).
    cbn [scan].
    change (String c (t1' +:+ String sp t2)) with (String c t1' +:+ String sp t2).
    rewrite match_at_app by exact Hsp.
    change (String.length (String c t1')) with (S (String.length t1')). cbn [scan].
    destruct (match_at (String c t1')) as [[m rest]|] eqn:E.
    + pose proof (match_at_len _ _ _ E) as Hlt. simpl in Hlt, Hle.
      rewrite (scan_fuel (String.length (t1' +:+ String sp t2))
                 (String.length (rest +:+ String sp t2)))
        by (rewrite !length_app_str; simpl; lia).
      rewrite (scan_fuel (String.length t1') (String.length rest)) by lia.
      rewrite (IH (String.length rest) ltac:(lia) rest ltac:(lia)). reflexivity.
    + simpl in Hle. rewrite (IH (String.length t1') ltac:(lia) t1' ltac:(lia)).
      reflexivity.
Qed.

Lemma find_links_repeat u n :
  find_links_in_text u = [u] -> find_links_in_text (repeat_sep u n) = repeat u n.
Proof.
  intros Hu. induction n as [|n IH]; [reflexivity|].
  change (repeat_sep u (S n)) with (u +:+ String " " (repeat_sep u n)).
  rewrite find_links_app by reflexivity. now rewrite Hu, IH.
Qed.

(** Claim C9: the asymmetry of deduplication.  For the archive scan, each
    category of [extract_links_from_folder] is the first-seen
    deduplication of the URLs of that category met during the walk, so it
    holds each URL at most once, in first-seen order.  For raw text,
    [find_links_in_text] splits at whitespace without deduplicating: the
    links of [t1 ++ sp ++ t2] are those of [t1] followed by those of
    [t2], and [n] whitespace-separated copies of a link give [n] copies. *)
Theorem links_dedup_asymmetry :
  (forall (is_link_file : string -> bool) (files : list walk_file) (k : kind),
      extract_links_from_folder is_link_file files k =
        first_seen (List.filter (fun u => kind_eqb (classify_link u) k)
                                (urls_met is_link_file files)) /\
      List.NoDup (extract_links_from_folder is_link_file files k)) /\
  (forall (t1 t2 : string) (sp : ascii), is_space sp = true ->
      find_links_in_text (t1 +:+ String sp t2) =
      find_links_in_text t1 ++ find_links_in_text t2) /\
  (forall (u : string) (n : nat), find_links_in_text u = [u] ->
      find_links_in_text (repeat_sep u n) = repeat u n).
Proof.
  split; [|split].
  - intros is_link_file files k.
    unfold extract_links_from_folder. rewrite fold_scan_file.
    split; [reflexivity|].
    simpl. apply first_seen_from_nodup.
  - intros t1 t2 sp Hsp. now apply find_links_app.
  - intros u n Hu. now apply find_links_repeat.
Qed.

Lemma links_dedup_asymmetry_witness :
  find_links_in_text (repeat_sep "https://a.io/v.mp4" 3) =
  ["https://a.io/v.mp4"; "https://a.io/v.mp4"; "https://a.io/v.mp4"] /\
  extract_links_from_folder (fun _ => true)
    [{| wf_name := "links.txt";
        wf_text := Some (repeat_sep "https://a.io/v.mp4" 3) |}] Direct =
  ["https://a.io/v.mp4"].
Proof.
  split.
  - apply (proj2 (proj2 links_dedup_asymmetry) "https://a.io/v.mp4" 3).
    reflexivity.
  - rewrite (proj1 (proj1 links_dedup_asymmetry (fun _ => true) _ Direct)).
    vm_compute. reflexivity.
Defined.

End LinkFacts.

(* ================================================================== *)
(** ** Facts about the temp-path registry *)
(* ================================================================== *)

Module RegistryFacts.
Import Registry.

Lemma id_in_true i ids : id_in i ids = true <-> In i ids.
Proof.
  unfold id_in. rewrite existsb_exists. split.
  - intros [j [Hj Heq]]. apply Nat.eqb_eq in Heq. now subst.
  - intros H. exists i. split; [exact H|apply Nat.eqb_refl].
Qed.

Lemma nodup_map_inj {A B} (f : A -> B) (l : list A) x y :
  List.NoDup (map f l) -> In x l -> In y l -> f x = f y -> x = y.
Proof.
  induction l as [|a l IH]; simpl; [contradiction|].
  intros Hnd Hx Hy Hf. inversion Hnd as [|? ? Hnotin Hnd']; subst.
  destruct Hx as [<-|Hx], Hy as [<-|Hy]; [reflexivity| | |now apply IH].
  - exfalso. apply Hnotin. rewrite Hf. now apply in_map.
  - exfalso. apply Hnotin. rewrite <- Hf. now apply in_map.
Qed.

Lemma nodup_map_filter {A B} (f : A -> B) (p : A -> bool) (l : list A) :
  List.NoDup (map f l) -> List.NoDup (map f (List.filter p l)).
Proof.
  induction l as [|a l IH]; simpl; [constructor|].
  intros Hnd. inversion Hnd as [|? ? Hnotin Hnd']; subst.
  destruct (p a); simpl; [|now apply IH].
  constructor; [|now apply IH].
  intros Hin. apply Hnotin. apply in_map_iff in Hin as [b [Hb Hin]].
  apply filter_In in Hin as [Hin _]. rewrite <- Hb. now apply in_map.
Qed.

Lemma wf_empty : col_wf empty_col.
Proof. split; constructor. Qed.

Lemma wf_register now uid p ttl col :
  col_wf col -> col_wf (register_temp_path now uid p ttl col).
Proof.
  intros [Hlt Hnd]. unfold register_temp_path. split; simpl.
  - apply List.Forall_app. split.
    + eapply List.Forall_impl; [|exact Hlt]. simpl. intros d H. lia.
    + constructor; [simpl; lia|constructor].
  - rewrite map_app. apply List.NoDup_app; [exact Hnd|repeat constructor; simpl; tauto|].
    intros a Ha [Heq|[]]. simpl in Heq. subst a.
    apply in_map_iff in Ha as [d [Hd Hin]].
    rewrite List.Forall_forall in Hlt. specialize (Hlt d Hin). lia.
Qed.

(** With distinct identifiers, deleting the expired identifiers keeps
    exactly the live documents. *)
Lemma sweep_docs now col :
  col_wf col ->
  docs (snd (get_expired_temp_paths now col)) =
  List.filter (fun d => negb (is_expired now d)) (docs col).
Proof.
  intros [_ Hnd]. unfold get_expired_temp_paths. simpl.
  destruct (map doc_id (List.filter (is_expired now) (docs col))) eqn:E.
  - apply map_eq_nil in E. symmetry. apply forallb_filter_id.
    apply forallb_forall. intros d Hd.
    destruct (is_expired now d) eqn:Ed; [|reflexivity].
    assert (In d (List.filter (is_expired now) (docs col))) as Hin
      by (apply filter_In; auto).
    rewrite E in Hin. contradiction.
  - rewrite <- E. unfold delete_many. simpl. apply filter_ext_in.
    intros d Hd. f_equal.
    destruct (is_expired now d) eqn:Ed.
    + apply id_in_true. apply in_map. now apply filter_In.
    + destruct (id_in (doc_id d) _) eqn:Ei; [|reflexivity].
      apply id_in_true, in_map_iff in Ei as [d' [Hid Hin]].
      apply filter_In in Hin as [Hin Hexp].
      rewrite (nodup_map_inj doc_id (docs col) d' d Hnd Hin Hd Hid) in Hexp.
      congruence.
Qed.

Lemma wf_sweep now col : col_wf col -> col_wf (snd (get_expired_temp_paths now col)).
Proof.
  intros Hwf. pose proof (sweep_docs now col Hwf) as Hd.
  assert (Hn : next_id (snd (get_expired_temp_paths now col)) = next_id col).
  { unfold get_expired_temp_paths. simpl. now destruct (map doc_id _). }
  destruct Hwf as [Hlt Hnd]. split; rewrite Hd.
  - rewrite Hn. apply List.Forall_forall. intros d Hin. apply filter_In in Hin as [Hin _].
    rewrite List.Forall_forall in Hlt. now apply Hlt.
  - now apply nodup_map_filter.
Qed.

(** Claim C2: TTL correctness.  A path [P] registered at [t0] with
    [ttl] minutes is decided exactly by [t0 + ttl <= now]: a sweep with
    [now < t0 + ttl] keeps its record, a sweep with [t0 + ttl <= now]
    returns [P] (for subtree removal) and deletes the record. *)
Theorem sweep_ttl_exact (col : files_col) (t0 uid : Z) (P : string) (ttl now : Z) :
  col_wf col ->
  let r := {| doc_id := next_id col; user_id := uid; path := P;
              created_at := t0; ttl_min := ttl |} in
  let res := get_expired_temp_paths now (register_temp_path t0 uid P ttl col) in
  ((now < t0 + minutes ttl)%Z -> In r (docs (snd res))) /\
  ((t0 + minutes ttl <= now)%Z ->
     In P (fst res) /\ Forall (fun d => doc_id d <> doc_id r) (docs (snd res))).
Proof.
  intros Hwf r res.
  pose proof (wf_register t0 uid P ttl col Hwf) as Hwf1.
  assert (Hr : In r (docs (register_temp_path t0 uid P ttl col))).
  { simpl. apply in_or_app. right. now left. }
  split.
  - intros Hlive. unfold res. rewrite (sweep_docs now _ Hwf1).
    apply filter_In. split; [exact Hr|].
    unfold is_expired. simpl. destruct (_ <=? now)%Z eqn:E; [|reflexivity].
    apply Z.leb_le in E. lia.
  - intros Hexp.
    assert (He : is_expired now r = true) by (apply Z.leb_le; exact Hexp).
    split.
    + unfold res, get_expired_temp_paths. simpl fst.
      apply in_map_iff. exists r. split; [reflexivity|]. now apply filter_In.
    + unfold res. rewrite (sweep_docs now _ Hwf1). apply List.Forall_forall.
      intros d Hd Hid. apply filter_In in Hd as [Hd Hne].
      destruct Hwf1 as [_ Hnd].
      rewrite (nodup_map_inj doc_id _ d r Hnd Hd Hr Hid) in Hne.
      rewrite He in Hne. discriminate.
Qed.

Lemma sweep_ttl_exact_witness :
  In "/tmp/5/a"
     (fst (get_expired_temp_paths 61000000 (register_temp_path 0 5 "/tmp/5/a" 1 empty_col))) /\
  In {| doc_id := 0; user_id := 5; path := "/tmp/5/a"; created_at := 0; ttl_min := 1 |}
     (docs (snd (get_expired_temp_paths 30000000
                  (register_temp_path 0 5 "/tmp/5/a" 1 empty_col)))).
Proof.
  split.
  - exact (proj1 (proj2 (sweep_ttl_exact empty_col 0 5 "/tmp/5/a" 1 61000000 wf_empty)
                   ltac:(unfold minutes; lia))).
  - exact (proj1 (sweep_ttl_exact empty_col 0 5 "/tmp/5/a" 1 30000000 wf_empty)
                   ltac:(unfold minutes; lia)).
Defined.

(** Claim C8 (as stated, refuted): two sweeps in immediate succession, one
    microsecond apart and with no registration in between, where the
    second one deletes a record: the record expires between them. *)
Lemma sweep_twice_not_noop :
  let col := register_temp_path 0 5 "/tmp/5/a" 1 empty_col in
  let first := get_expired_temp_paths 59999999 col in
  fst first = [] /\
  fst (get_expired_temp_paths 60000000 (snd first)) = ["/tmp/5/a"].
Proof. vm_compute. split; reflexivity. Qed.

(** Claim C8 (amended): with no registration in between, the second
    sweep returns exactly the records that expired after the first
    sweep's [now] and by its own; in particular a second sweep at the
    same (or an earlier) [now] returns nothing. *)
Theorem sweep_second_run (col : files_col) (now1 now2 : Z) :
  col_wf col ->
  fst (get_expired_temp_paths now2 (snd (get_expired_temp_paths now1 col))) =
    map path (List.filter (fun d => negb (is_expired now1 d) && is_expired now2 d)%bool
                          (docs col)) /\
  ((now2 <= now1)%Z ->
     fst (get_expired_temp_paths now2 (snd (get_expired_temp_paths now1 col))) = []).
Proof.
  intros Hwf.
  assert (Hfst : fst (get_expired_temp_paths now2 (snd (get_expired_temp_paths now1 col))) =
            map path (List.filter (fun d => negb (is_expired now1 d) && is_expired now2 d)%bool
                                  (docs col))).
  { pose proof (sweep_docs now1 col Hwf) as Hd.
    remember (snd (get_expired_temp_paths now1 col)) as col1 eqn:Hc. clear Hc.
    unfold get_expired_temp_paths. simpl fst.
    rewrite Hd. f_equal. clear Hd.
    induction (docs col) as [|d ds IH]; simpl; [reflexivity|].
    destruct (is_expired now1 d) eqn:E1; simpl;
      destruct (is_expired now2 d) eqn:E2; simpl; rewrite ?E1, ?E2; simpl; now rewrite ?IH. }
  split; [exact Hfst|].
  intros Hle. rewrite Hfst. clear Hfst Hwf.
  induction (docs col) as [|d ds IH]; [reflexivity|]. simpl.
  unfold is_expired at 1 2.
  destruct (created_at d + minutes (ttl_min d) <=? now2)%Z eqn:E2.
  - apply Z.leb_le in E2.
    replace (created_at d + minutes (ttl_min d) <=? now1)%Z with true
      by (symmetry; apply Z.leb_le; lia).
    simpl. exact IH.
  - rewrite andb_false_r. exact IH.
Qed.

Lemma sweep_second_run_witness :
  fst (get_expired_temp_paths 60000000
         (snd (get_expired_temp_paths 60000000
                 (register_temp_path 0 5 "/tmp/5/a" 1 empty_col)))) = [].
Proof.
  apply (proj2 (sweep_second_run (register_temp_path 0 5 "/tmp/5/a" 1 empty_col)
                  60000000 60000000 (wf_register 0 5 "/tmp/5/a" 1 empty_col wf_empty))).
  lia.
Defined.

End RegistryFacts.

(* ================================================================== *)
(** ** Facts about the progress reporter *)
(* ================================================================== *)

Module ProgressFacts.
Import Progress.
Local Open Scope Q_scope.

Lemma py_div_some a b : Qeq_bool b 0 = false -> py_div a b = Some (a / b).
Proof. intros H. unfold py_div. now rewrite H. Qed.

Lemma qlt_pos_nonzero a : qlt 0 a = true -> Qeq_bool a 0 = false.
Proof.
  unfold qlt. intros H. apply negb_true_iff in H.
  destruct (Qeq_bool a 0) eqn:E; [|reflexivity].
  apply Qeq_bool_iff in E. rewrite E in H. discriminate.
Qed.

(** Claim C10: [progress_for_pyrogram] never raises a division error: on
    every input it either returns early (rate limit) or emits a report,
    and in a report the percent is [0] when [total = 0], the speed is [0]
    when the elapsed time is not positive, and the ETA is [0] when the
    speed is [0]. *)
Theorem progress_total (interval now : Q) (last_update : gmap Z Q)
    (current total msg_id : Z) (start_time : Q) :
  exists res,
    progress_for_pyrogram interval now last_update current total msg_id start_time = Some res /\
    forall rep lu, res = (Some rep, lu) ->
      (total = 0%Z -> percent rep == 0) /\
      (now - start_time <= 0 -> speed rep == 0) /\
      (speed rep == 0 -> eta rep = 0%Z).
Proof.
  unfold progress_for_pyrogram.
  destruct (qlt (now - default 0 (last_update !! msg_id)) interval
            && negb (current =? total)%Z)%bool.
  { eexists. split; [reflexivity|]. intros rep lu [=]. }
  set (P := if (total =? 0)%Z then Some 0
            else py_div (inject_Z current * 100) (inject_Z total)).
  assert (HP : exists pc, P = Some pc /\ (total = 0%Z -> pc == 0)).
  { unfold P. destruct (total =? 0)%Z eqn:Et.
    - exists 0. split; [reflexivity|]. intros _. reflexivity.
    - eexists. split; [apply py_div_some|].
      + destruct (Qeq_bool (inject_Z total) 0) eqn:E; [|reflexivity].
        apply Qeq_bool_iff in E. unfold Qeq in E. simpl in E.
        apply Z.eqb_neq in Et. lia.
      + intros ->. discriminate. }
  destruct HP as [pc [-> Hpc]]. cbn [obind].
  set (S := if qlt 0 (now - start_time) then py_div (inject_Z current) (now - start_time)
            else Some 0).
  assert (HS : exists sp, S = Some sp /\ (now - start_time <= 0 -> sp == 0)).
  { unfold S. destruct (qlt 0 (now - start_time)) eqn:Ee.
    - eexists. split; [apply py_div_some, qlt_pos_nonzero, Ee|].
      intros Hle. unfold qlt in Ee. apply negb_true_iff in Ee.
      apply Qle_bool_iff in Hle. congruence.
    - exists 0. split; [reflexivity|]. intros _. reflexivity. }
  destruct HS as [sp [-> Hsp]]. cbn [obind].
  set (E := if qlt 0 sp
            then obind (py_div (inject_Z total - inject_Z current) sp) (fun q => Some (py_int q))
            else Some 0%Z).
  assert (HE : exists e, E = Some e /\ (sp == 0 -> e = 0%Z)).
  { unfold E. destruct (qlt 0 sp) eqn:Es.
    - rewrite py_div_some by (apply qlt_pos_nonzero, Es). cbn [obind].
      eexists. split; [reflexivity|]. intros Hz.
      unfold qlt in Es. apply negb_true_iff in Es.
      assert (Qle_bool sp 0 = true) by (apply Qle_bool_iff; rewrite Hz; apply Qle_refl).
      congruence.
    - exists 0%Z. split; [reflexivity|]. intros _. reflexivity. }
  destruct HE as [e [-> He]]. cbn [obind].
  rewrite py_div_some by reflexivity. cbn [obind].
  eexists. split; [reflexivity|].
  intros rep lu [= <- _]. simpl. auto.
Qed.

Lemma progress_total_witness :
  exists res,
    progress_for_pyrogram 5 100 ∅ 0 0 7 100 = Some res /\
    forall rep lu, res = (Some rep, lu) ->
      (0%Z = 0%Z -> percent rep == 0) /\
      (100 - 100 <= 0 -> speed rep == 0) /\
      (speed rep == 0 -> eta rep = 0%Z).
Proof. exact (progress_total 5 100 ∅ 0 0 7 100). Defined.

End ProgressFacts.

(* ================================================================== *)
(** ** Facts about the per-user lock and the cancellation flag *)
(* ================================================================== *)

Module CoordinatorFacts.
Import Coordinator.

Lemma get_lock_locked u s : locked u s = true -> get_lock u s = s.
Proof.
  unfold locked, get_lock. destruct (user_locks s !! u); [reflexivity | discriminate].
Qed.

Lemma locked_get_lock u v s : locked u (get_lock v s) = locked u s.
Proof.
  unfold locked, get_lock. destruct (user_locks s !! v) eqn:Hv; [reflexivity|]. cbn.
  destruct (decide (v = u)) as [->|Hne].
  - rewrite lookup_insert_eq, Hv. reflexivity.
  - rewrite lookup_insert_ne by exact Hne. reflexivity.
Qed.

Lemma locked_set_lock_ne u v b s : v <> u -> locked u (set_lock v b s) = locked u s.
Proof. intros Hne. unfold locked, set_lock. cbn. rewrite lookup_insert_ne by exact Hne. reflexivity. Qed.

Lemma locked_set_lock_eq u b s : locked u (set_lock u b s) = b.
Proof. unfold locked, set_lock. cbn. rewrite lookup_insert_eq. reflexivity. Qed.

Lemma locked_set_cancelled u v b s : locked u (set_cancelled v b s) = locked u s.
Proof. reflexivity. Qed.

(** *** The lock invariant of the event loop *)























(** An invariant [P] of the state kept by a computation, and a bound [Q]
    on its result; an early exit never reports [ExBusy]. *)
Definition keeps {A} (P : state -> Prop) (Q : A -> Prop) (m : M A) : Prop :=
  forall s, P s -> P (fst (m s)) /\
    match snd (m s) with Ok a => Q a | Stop e => e <> ExBusy end.

Lemma keeps_bind {A B} P (Q1 : A -> Prop) (Q : B -> Prop) m k :
  keeps P Q1 m -> (forall a, Q1 a -> keeps P Q (k a)) -> keeps P Q (bind m k).
Proof.
  intros Hm Hk s Hs. unfold bind. specialize (Hm s Hs).
  destruct (m s) as [s' [a|e]]; cbn in *; destruct Hm as [Hs' Hr].
  - exact (Hk a Hr s' Hs').
  - split; assumption.
Qed.

Lemma keeps_stop {A} P (Q : A -> Prop) e : e <> ExBusy -> keeps P Q (stop e).
Proof. intros He s Hs. split; assumption. Qed.

Lemma keeps_ret {A} P (Q : A -> Prop) a : Q a -> keeps P Q (ret a).
Proof. intros Ha s Hs. split; assumption. Qed.

Lemma keeps_read_flag u P : keeps P (fun _ => True) (read_flag u).
Proof. intros s Hs. split; [exact Hs | exact I]. Qed.

Lemma keeps_sync env P k : keeps P (fun _ => True) (sync_ env k).
Proof. intros s Hs. unfold sync_. destruct (raises_at env k); split; try exact Hs; try exact I; discriminate. Qed.

Section Flag.
Variable env : unzip_env.
Variable u : Z.

(** The flag invariant: the flag of [u] is not set. *)
Definition flag_clear (s : state) : Prop := cancelled u s = false.

Hypothesis no_cancel : forall k, cancel_at env k = false.

Lemma keeps_await_clear k : keeps flag_clear (fun _ => True) (await_ env u k).
Proof.
  intros s Hs. unfold await_. rewrite no_cancel.
  destruct (raises_at env k); split; try exact Hs; try exact I; discriminate.
Qed.

Lemma keeps_try_await_clear k : keeps flag_clear (fun _ => True) (try_await env u k).
Proof. intros s Hs. unfold try_await. rewrite no_cancel. split; [exact Hs | exact I]. Qed.

End Flag.

Lemma keeps_await_any env u k : keeps (fun _ => True) (fun _ => True) (await_ env u k).
Proof.
  intros s _. unfold await_. destruct (raises_at env k); split; try exact I; discriminate.
Qed.

Lemma keeps_try_await_any env u k : keeps (fun _ => True) (fun _ => True) (try_await env u k).
Proof. intros s _. split; exact I. Qed.

Lemma set_flag_clear u : keeps (fun _ => True) (fun _ => True) (set_flag u false) /\
  forall s, cancelled u (fst (set_flag u false s)) = false.
Proof.
  split; [intros s _; split; exact I|].
  intros s. unfold cancelled, set_flag, set_cancelled. cbn. rewrite lookup_insert_eq. reflexivity.
Qed.

Ltac keeps_body prim :=
  repeat first
    [ apply keeps_bind with (Q1 := fun _ => True); [| intros ? _]
    | apply keeps_stop; discriminate
    | apply keeps_ret; discriminate
    | apply keeps_ret; exact I
    | apply keeps_read_flag
    | apply keeps_sync
    | prim
    | match goal with |- keeps _ _ (if ?b then _ else _) => destruct b end ].

(** The body never stops with [ExBusy] and ends with a result other than
    [ExBusy]. *)
Lemma body_not_busy env u :
  keeps (fun _ => True) (fun e => e <> ExBusy) (unzip_body env u).
Proof.
  unfold unzip_body.
  apply keeps_bind with (Q1 := fun _ => True); [apply set_flag_clear | intros ? _].
  keeps_body ltac:(first [apply keeps_await_any | apply keeps_try_await_any]).
Qed.

(** Without a [/cancel] during the run the flag stays cleared. *)
Lemma body_flag_clear env u (Hno : forall k, cancel_at env k = false) s :
  cancelled u (fst (unzip_body env u s)) = false.
Proof.
  assert (H : keeps (flag_clear u) (fun _ => True)
                 (let! _ := await_ env u 0 in let! _ := sync_ env 1 in
                  let! _ := await_ env u 2 in let! _ := await_ env u 3 in
                  let! failed := try_await env u 4 in
                  if failed then (let! _ := await_ env u 5 in stop ExDownloadFail) else
                  if negb (download_path env) then (let! _ := await_ env u 6 in stop ExNoPath) else
                  let! _ := try_await env u 7 in
                  let! c := read_flag u in
                  if c then (let! _ := await_ env u 8 in stop ExCancelled) else
                  if (negb (has_password env) && encrypted env)%bool
                  then (let! _ := await_ env u 9 in stop ExEncrypted) else
                  let! _ := await_ env u 10 in
                  if negb (extract_ok env) then (let! _ := await_ env u 11 in stop ExExtractFail) else
                  let! c := read_flag u in
                  if c then (let! _ := await_ env u 12 in stop ExCancelledMid) else
                  let! _ := sync_ env 15 in
                  let! _ := await_ env u 13 in
                  let! _ := await_ env u 14 in
                  ret ExDone)).
  { keeps_body ltac:(first [apply (keeps_await_clear env u Hno)
                             | apply (keeps_try_await_clear env u Hno)]). }
  apply (H (set_cancelled u false s)).
  exact (proj2 (set_flag_clear u) s).
Qed.

Lemma get_lock_set_cancelled u v b s :
  get_lock u (set_cancelled v b s) = set_cancelled v b (get_lock u s).
Proof. unfold get_lock. cbn. destruct (user_locks s !! u); reflexivity. Qed.

Lemma set_cancelled_twice u b c s :
  set_cancelled u c (set_cancelled u b s) = set_cancelled u c s.
Proof. unfold set_cancelled. cbn. rewrite insert_insert_eq. reflexivity. Qed.

Lemma body_reset env u b s :
  unzip_body env u (set_cancelled u b s) = unzip_body env u s.
Proof.
  unfold unzip_body at 1 2. unfold bind at 1 4. cbn [set_flag].
  rewrite set_cancelled_twice. reflexivity.
Qed.

(** C5, counterexample: leaving the task does not clear the flag.  A
    [/cancel] handled while the archive is being downloaded makes the task
    stop at the first cancellation check; after it has left, the lock is
    free but [user_cancelled[555]] is still [True]. *)
Lemma unzip_cancel_flag_survives :
  let env := {| cancel_at := fun k => Nat.eqb k 4; raises_at := fun _ => false;
                download_path := true; has_password := false;
                encrypted := false; extract_ok := true |} in
  let '(s', ex) := run_unzip_task env 555 empty_state in
  ex = ExCancelled /\ locked 555 s' = false /\ cancelled 555 s' = true.
Proof. vm_compute. split; [reflexivity | split; reflexivity]. Qed.

(** C5, amended: the lock is released on every way out of
    [run_unzip_task] (normal end, early return, exception, cancellation),
    and a busy start leaves the state as it is; the flag is not cleared on
    exit but reset to [False] when the lock is acquired, so a flag left
    from before never affects the next run, and it is still [False] at the
    exit of a run during which no [/cancel] arrived. *)
Theorem unzip_slot_release env u s :
  (locked u s = true -> run_unzip_task env u s = (s, ExBusy)) /\
  (locked u s = false ->
     locked u (fst (run_unzip_task env u s)) = false /\
     snd (run_unzip_task env u s) <> ExBusy /\
     ((forall k, cancel_at env k = false) ->
        cancelled u (fst (run_unzip_task env u s)) = false) /\
     (forall b, run_unzip_task env u (set_cancelled u b s) = run_unzip_task env u s)).
Proof.
  split.
  - intros Hl. unfold run_unzip_task, try_begin.
    rewrite (get_lock_locked u s Hl), Hl. reflexivity.
  - intros Hl. unfold run_unzip_task, try_begin.
    rewrite locked_get_lock, Hl.
    pose proof (body_not_busy env u (set_lock u true (get_lock u s)) I) as Hnb.
    pose proof (body_flag_clear env u) as Hfc.
    destruct (unzip_body env u (set_lock u true (get_lock u s))) as [s2 r] eqn:Hb.
    cbn in Hnb. destruct Hnb as [_ Hnb].
    split; [|split; [|split]].
    + apply locked_set_lock_eq.
    + cbn. destruct r; exact Hnb.
    + intros Hno. cbn. specialize (Hfc Hno (set_lock u true (get_lock u s))).
      rewrite Hb in Hfc. exact Hfc.
    + intros b. rewrite get_lock_set_cancelled, locked_set_cancelled, locked_get_lock, Hl.
      change (set_lock u true (set_cancelled u b (get_lock u s)))
        with (set_cancelled u b (set_lock u true (get_lock u s))).
      rewrite body_reset, Hb. reflexivity.
Qed.

Lemma unzip_slot_release_witness :
  let env := {| cancel_at := fun _ => false; raises_at := fun k => Nat.eqb k 13;
                download_path := true; has_password := false;
                encrypted := false; extract_ok := true |} in
  locked 555 empty_state = false /\
  locked 555 (fst (run_unzip_task env 555 empty_state)) = false /\
  snd (run_unzip_task env 555 empty_state) = ExRaised.
Proof.
  intros env.
  assert (Hl : locked 555 empty_state = false) by reflexivity.
  split; [exact Hl|]. split.
  - exact (proj1 (proj2 (unzip_slot_release env 555 empty_state) Hl)).
  - vm_compute. reflexivity.
Defined.

End CoordinatorFacts.

(* ================================================================== *)
(** ** Facts about the batch download handler *)
(* ================================================================== *)

Module BatchFacts.
Import LinkParser Batch.

Section Loops.
Variable g : string -> gd.
Variable env : batch_env.

Lemma direct_loop_no_cancel (Hnc : forall k, cancel_check env k = false) urls st :
  let st' := direct_loop env urls st in
  ok st' + fail st' = ok st + fail st + length urls /\
  trace st' = trace st ++ map FDirect urls /\ raised st' = raised st.
Proof.
  revert st. induction urls as [|url rest IH]; intros st; cbn.
  - rewrite app_nil_r. split; [lia | split; reflexivity].
  - rewrite Hnc. destruct (item_fails env (items st));
      match goal with |- context [direct_loop env rest ?x] =>
        destruct (IH x) as (H1 & H2 & H3) end; cbn in *;
      rewrite H2, <- app_assoc; (split; [lia | split; [reflexivity | exact H3]]).
Qed.

Lemma gdrive_loop_no_cancel (Hnc : forall k, cancel_check env k = false) urls st :
  let st' := gdrive_loop g env urls st in
  raised st' = false ->
  ok st' + fail st' = ok st + fail st + length urls /\
  trace st' = trace st ++ map FGdrive (List.filter (resolved g) urls).
Proof.
  revert st. induction urls as [|url rest IH]; intros st; cbn.
  - rewrite app_nil_r. split; [lia | reflexivity].
  - rewrite Hnc. destruct (g url) as [d| |] eqn:Hg;
      [ replace (resolved g url) with true by (unfold resolved; rewrite Hg; reflexivity)
      | replace (resolved g url) with false by (unfold resolved; rewrite Hg; reflexivity)
      | ].
    + cbn. destruct (item_fails env (items st)); intros Hr;
        match goal with Hr : raised (gdrive_loop g env rest ?x) = false |- _ =>
          destruct (IH x Hr) as (H1 & H2) end; cbn in *;
        rewrite H2, <- app_assoc; (split; [lia | reflexivity]).
    + intros Hr. destruct (IH _ Hr) as (H1 & H2). cbn in *.
      rewrite H2. split; [lia | reflexivity].
    + cbn. discriminate.
Qed.

Lemma m3u8_loop_no_cancel (Hnc : forall k, cancel_check env k = false) urls st :
  let st' := m3u8_loop env urls st in
  raised st' = false ->
  ok st' = ok st /\ fail st' = fail st /\ trace st' = trace st ++ map FMenu urls.
Proof.
  revert st. induction urls as [|url rest IH]; intros st; cbn.
  - rewrite app_nil_r. auto.
  - rewrite Hnc. destruct (item_fails env (items st)); cbn; [discriminate|].
    intros Hr. destruct (IH _ Hr) as (H1 & H2 & H3); cbn in *.
    rewrite H3, <- app_assoc. auto.
Qed.

Lemma direct_loop_sub urls st :
  exists l, trace (direct_loop env urls st) = trace st ++ l /\ l `sublist_of` map FDirect urls.
Proof.
  revert st. induction urls as [|url rest IH]; intros st; cbn.
  - exists []. rewrite app_nil_r. split; [reflexivity | apply sublist_nil_l].
  - destruct (cancel_check env (checks st)).
    + exists []. rewrite app_nil_r. split; [reflexivity | apply sublist_nil_l].
    + destruct (item_fails env (items st));
        match goal with |- context [direct_loop env rest ?x] =>
          destruct (IH x) as (l & H1 & H2) end; cbn in *;
        exists (FDirect url :: l); rewrite H1, <- app_assoc;
        (split; [reflexivity | apply sublist_skip; exact H2]).
Qed.

Lemma gdrive_loop_sub urls st :
  exists l, trace (gdrive_loop g env urls st) = trace st ++ l /\
            l `sublist_of` map FGdrive (List.filter (resolved g) urls).
Proof.
  revert st. induction urls as [|url rest IH]; intros st; cbn.
  - exists []. rewrite app_nil_r. split; [reflexivity | apply sublist_nil_l].
  - destruct (cancel_check env (checks st)).
    + exists []. rewrite app_nil_r. split; [reflexivity | apply sublist_nil_l].
    + destruct (g url) as [d| |] eqn:Hg;
        [ replace (resolved g url) with true by (unfold resolved; rewrite Hg; reflexivity)
        | replace (resolved g url) with false by (unfold resolved; rewrite Hg; reflexivity)
        | ].
      * destruct (item_fails env (items st));
          match goal with |- context [gdrive_loop g env rest ?x] =>
            destruct (IH x) as (l & H1 & H2) end; cbn in *;
          exists (FGdrive url :: l); rewrite H1, <- app_assoc;
          (split; [reflexivity | apply sublist_skip; exact H2]).
      * destruct (IH (add_fail (bump_check st))) as (l & H1 & H2); cbn in *.
        exists l. split; [exact H1 | exact H2].
      * exists []. rewrite app_nil_r. split; [reflexivity | apply sublist_nil_l].
Qed.

Lemma m3u8_loop_sub urls st :
  exists l, trace (m3u8_loop env urls st) = trace st ++ l /\ l `sublist_of` map FMenu urls.
Proof.
  revert st. induction urls as [|url rest IH]; intros st; cbn.
  - exists []. rewrite app_nil_r. split; [reflexivity | apply sublist_nil_l].
  - destruct (cancel_check env (checks st)).
    + exists []. rewrite app_nil_r. split; [reflexivity | apply sublist_nil_l].
    + destruct (item_fails env (items st)).
      * exists [FMenu url]. cbn. split; [reflexivity|].
        apply sublist_skip, sublist_nil_l.
      * destruct (IH (start (FMenu url) (bump_check st))) as (l & H1 & H2); cbn in *.
        exists (FMenu url :: l). rewrite H1, <- app_assoc.
        split; [reflexivity | apply sublist_skip; exact H2].
Qed.

(** The three ways out of the handler and what each one reports. *)
Lemma handle_shape links o tr :
  let st2 := gdrive_loop g env (pick Gdrive links)
               (direct_loop env (candidate_direct links) init) in
  let st3 := m3u8_loop env (pick M3u8 links) st2 in
  handle_links_download_all g env links = (o, tr) ->
  ((o = Early \/ o = Aborted) /\ tr = []) \/ (o = Aborted /\ tr = trace st2) \/
  (raised st2 = false /\
   ((o = Aborted /\ tr = trace st3) \/
    (raised st3 = false /\ o = Finished (ok st3) (fail st3) /\ tr = trace st3))).
Proof.
  intros st2 st3. unfold handle_links_download_all.
  destruct links as [|l0 links]; [intros H; inversion H; left; auto|].
  fold st2 st3.
  destruct (candidate_direct (l0 :: links)), (pick M3u8 (l0 :: links)),
    (pick Gdrive (l0 :: links)); cbn zeta;
    try (intros H; inversion H; left; auto; fail);
    (destruct (negb (has_user env)); [intros H; inversion H; left; auto|]);
    (destruct (register_raises env); [intros H; inversion H; left; auto|]);
    fold st2 st3;
    (destruct (raised st2) eqn:H2; [intros H; inversion H; right; left; auto|]);
    (destruct (raised st3) eqn:H3; intros H; inversion H; right; right; auto).
Qed.


Lemma trace_init : trace init = [].
Proof. reflexivity. Qed.






Lemma direct_loop_raised urls st : raised (direct_loop env urls st) = raised st.
Proof.
  revert st. induction urls as [|url rest IH]; intros st; cbn; [reflexivity|].
  destruct (cancel_check env (checks st)); [reflexivity|].
  destruct (item_fails env (items st)); rewrite IH; reflexivity.
Qed.





End Loops.

Section Claims.
Variable g : string -> gd.
Variable env : batch_env.


(** C4, amended: the handler starts its items in the order of the code,
    never reordered: first the direct links and then the unknown links,
    then the Google Drive links that resolve, then the m3u8 menus, each
    group in input order.  Whatever the cancellations and failures, what
    it starts is a sublist of that order, and the whole of it when it
    runs to its end without cancellation. *)
Theorem batch_code_order links o tr :
  handle_links_download_all g env links = (o, tr) ->
  tr `sublist_of` code_order g links /\
  ((forall k, cancel_check env k = false) ->
   forall okn failn, o = Finished okn failn -> tr = code_order g links).
Proof.
  intros H. unfold code_order. split.
  - destruct (direct_loop_sub env (candidate_direct links) init) as (l1 & E1 & S1).
    destruct (gdrive_loop_sub g env (pick Gdrive links)
                (direct_loop env (candidate_direct links) init)) as (l2 & E2 & S2).
    destruct (m3u8_loop_sub env (pick M3u8 links)
                (gdrive_loop g env (pick Gdrive links)
                   (direct_loop env (candidate_direct links) init))) as (l3 & E3 & S3).
    rewrite E2, E1, trace_init in E3. rewrite E1, trace_init in E2.
    destruct (handle_shape g env links _ _ H)
      as [[_ ->]|[[_ ->]|[_ [[_ ->]|(_ & _ & ->)]]]].
    + apply sublist_nil_l.
    + rewrite E2. cbn. rewrite <- (app_nil_r l2).
      apply sublist_app; [exact S1|]. apply sublist_app; [exact S2 | apply sublist_nil_l].
    + rewrite E3. cbn. rewrite <- app_assoc.
      apply sublist_app; [exact S1|]. apply sublist_app; [exact S2 | exact S3].
    + rewrite E3. cbn. rewrite <- app_assoc.
      apply sublist_app; [exact S1|]. apply sublist_app; [exact S2 | exact S3].
  - intros Hnc okn failn ->.
    destruct (handle_shape g env links _ _ H)
      as [[[E|E] _]|[[E _]|[R2 [[E _]|(R3 & E & Etr)]]]]; try discriminate.
    destruct (direct_loop_no_cancel env Hnc (candidate_direct links) init) as (_ & D2 & _).
    destruct (gdrive_loop_no_cancel g env Hnc (pick Gdrive links) _ R2) as (_ & G2).
    destruct (m3u8_loop_no_cancel env Hnc (pick M3u8 links) _ R3) as (_ & _ & M3).
    rewrite Etr, M3, G2, D2, trace_init. cbn. rewrite <- app_assoc. reflexivity.
Qed.

End Claims.

(** C4, counterexample: Google Drive links are not fetched first.  With a
    Drive link before a direct link in the message, the direct link is
    fetched first and the Drive link after it. *)
Lemma batch_gdrive_not_first :
  let g := fun _ : string => GdUrl "https://dl.example/x.bin" in
  let env := {| has_user := true; register_raises := false;
                cancel_check := fun _ => false; item_fails := fun _ => false |} in
  handle_links_download_all g env
    ["https://drive.google.com/file/d/abc"; "https://a.com/f.mp4"]
  = (Finished 2 0, [FDirect "https://a.com/f.mp4";
                    FGdrive "https://drive.google.com/file/d/abc"]).
Proof. vm_compute. reflexivity. Qed.



Lemma batch_code_order_witness :
  let g := fun _ : string => GdUrl "https://dl.example/x.bin" in
  let env := {| has_user := true; register_raises := false;
                cancel_check := fun k => Nat.eqb k 1; item_fails := fun _ => false |} in
  let links := ["https://drive.google.com/file/d/abc"; "https://a.com/f.mp4";
                "https://b.com/x"] in
  let tr := [FDirect "https://a.com/f.mp4";
             FGdrive "https://drive.google.com/file/d/abc"] in
  handle_links_download_all g env links = (Finished 2 0, tr) /\
  tr `sublist_of` code_order g links.
Proof.
  intros g env links tr.
  assert (H : handle_links_download_all g env links = (Finished 2 0, tr))
    by (vm_compute; reflexivity).
  split; [exact H|].
  exact (proj1 (batch_code_order g env links _ _ H)).
Defined.

End BatchFacts.

(* ================================================================== *)
(** ** More facts about [utils/progress.py] *)
(* ================================================================== *)

Module ProgressMore.
Import Progress.
Local Open Scope Q_scope.

Lemma py_div_ok a b : Qeq_bool b 0 = false -> py_div a b = Some (a / b).
Proof. intros H. unfold py_div. now rewrite H. Qed.

Lemma qlt_ok a b : qlt a b = true <-> a < b.
Proof.
  unfold qlt. rewrite negb_true_iff. split.
  - intros H. apply Qnot_le_lt. intros Hle. apply Qle_bool_iff in Hle. congruence.
  - intros H. destruct (Qle_bool b a) eqn:E; [|reflexivity].
    apply Qle_bool_iff in E. exfalso. apply (Qlt_not_le a b H E).
Qed.

Lemma pos_nonzero a : 0 < a -> Qeq_bool a 0 = false.
Proof.
  intros H. destruct (Qeq_bool a 0) eqn:E; [|reflexivity].
  apply Qeq_bool_iff in E. rewrite E in H. discriminate.
Qed.

Lemma py_int_floor q : 0 <= q -> py_int q = Qfloor q.
Proof.
  destruct q as [n d]. unfold py_int, Qfloor, Qle. cbn. intros H.
  apply Z.quot_div_nonneg; lia.
Qed.

Lemma py_int_bounds q (n : Z) : 0 <= q -> q <= inject_Z n -> (0 <= py_int q <= n)%Z.
Proof.
  intros H1 H2. rewrite py_int_floor by exact H1. split.
  - rewrite <- (Qfloor_Z 0). apply Qfloor_resp_le. exact H1.
  - rewrite <- (Qfloor_Z n). apply Qfloor_resp_le. exact H2.
Qed.

Lemma py_int_Qeq q q' : 0 <= q -> q == q' -> py_int q = py_int q'.
Proof.
  intros H E. assert (H' : 0 <= q') by (rewrite <- E; exact H).
  rewrite !py_int_floor by assumption.
  apply Z.le_antisymm; apply Qfloor_resp_le; rewrite E; apply Qle_refl.
Qed.

(** What an emitted report consists of, read off the code. *)
Lemma progress_shape interval now lu0 current total msg_id start_time rep lu :
  progress_for_pyrogram interval now lu0 current total msg_id start_time = Some (Some rep, lu) ->
  percent rep = (if (total =? 0)%Z then 0 else inject_Z current * 100 / inject_Z total) /\
  filled_len rep = py_int (20 * percent rep / 100) /\
  (eta rep = 0%Z \/
   (0 < speed rep /\ eta rep = py_int ((inject_Z total - inject_Z current) / speed rep))) /\
  (0 < now - start_time -> speed rep = inject_Z current / (now - start_time)) /\
  lu = (if (current =? total)%Z then delete msg_id (<[msg_id := now]> lu0)
        else <[msg_id := now]> lu0).
Proof.
  unfold progress_for_pyrogram.
  destruct (qlt (now - default 0 (lu0 !! msg_id)) interval
            && negb (current =? total)%Z)%bool; [discriminate|].
  assert (Hnz : (total =? 0)%Z = false -> Qeq_bool (inject_Z total) 0 = false).
  { intros Et. destruct (Qeq_bool (inject_Z total) 0) eqn:E; [|reflexivity].
    apply Qeq_bool_iff in E. unfold Qeq in E. cbn in E. apply Z.eqb_neq in Et. lia. }
  destruct (total =? 0)%Z eqn:Et; [|rewrite py_div_ok by (apply Hnz; reflexivity)].
  all: cbn [obind].
  all: destruct (qlt 0 (now - start_time)) eqn:Ee;
    [rewrite py_div_ok by (apply pos_nonzero, qlt_ok, Ee) | ]; cbn [obind].
  all: match goal with |- context [if qlt 0 ?sp then _ else _] =>
         destruct (qlt 0 sp) eqn:Es;
         [rewrite py_div_ok by (apply pos_nonzero, qlt_ok, Es) | ] end; cbn [obind].
  all: rewrite py_div_ok by reflexivity; cbn [obind].
  all: intros H; injection H as <- <-; cbn.
  all: repeat split; auto.
  all: try (right; split; [apply qlt_ok; exact Es | reflexivity]).
  all: intros Hpos; apply qlt_ok in Hpos; congruence.
Qed.

(** When nothing throttles the call, a report is emitted; the entry of
    the message is set to [now], or removed on the final call. *)
Lemma progress_emits interval now lu0 current total msg_id start_time :
  (qlt (now - default 0 (lu0 !! msg_id)) interval && negb (current =? total)%Z)%bool = false ->
  exists rep, progress_for_pyrogram interval now lu0 current total msg_id start_time =
    Some (Some rep, if (current =? total)%Z then delete msg_id (<[msg_id := now]> lu0)
                    else <[msg_id := now]> lu0).
Proof.
  intros Hg. unfold progress_for_pyrogram. rewrite Hg.
  assert (Hnz : (total =? 0)%Z = false -> Qeq_bool (inject_Z total) 0 = false).
  { intros Et. destruct (Qeq_bool (inject_Z total) 0) eqn:E; [|reflexivity].
    apply Qeq_bool_iff in E. unfold Qeq in E. cbn in E. apply Z.eqb_neq in Et. lia. }
  destruct (total =? 0)%Z eqn:Et; [|rewrite py_div_ok by (apply Hnz; reflexivity)].
  all: cbn [obind].
  all: destruct (qlt 0 (now - start_time)) eqn:Ee;
    [rewrite py_div_ok by (apply pos_nonzero, qlt_ok, Ee) | ]; cbn [obind].
  all: match goal with |- context [if qlt 0 ?sp then _ else _] =>
         destruct (qlt 0 sp) eqn:Es;
         [rewrite py_div_ok by (apply pos_nonzero, qlt_ok, Es) | ] end; cbn [obind].
  all: rewrite py_div_ok by reflexivity; cbn [obind].
  all: eexists; reflexivity.
Qed.

Lemma py_int_nonneg q : 0 <= q -> (0 <= py_int q)%Z.
Proof.
  intros H. rewrite py_int_floor by exact H.
  rewrite <- (Qfloor_Z 0). apply Qfloor_resp_le. exact H.
Qed.

(** Extra: for a transfer with [0 <= current <= total] and [total > 0],
    every emitted report has a percentage in [0, 100], a bar of [0] to
    [20] filled cells and a non-negative ETA; the final call shows
    [100%] and a full bar. *)
Theorem progress_report_bounds interval now lu0 current total msg_id start_time rep lu :
  (0 <= current <= total)%Z -> (0 < total)%Z ->
  progress_for_pyrogram interval now lu0 current total msg_id start_time = Some (Some rep, lu) ->
  0 <= percent rep <= 100 /\ (0 <= filled_len rep <= 20)%Z /\ (0 <= eta rep)%Z /\
  (current = total -> percent rep == 100 /\ filled_len rep = 20%Z).
Proof.
  intros Hc Ht H.
  destruct (progress_shape _ _ _ _ _ _ _ _ _ H) as (Hp & Hf & He & _ & _).
  replace (total =? 0)%Z with false in Hp by (symmetry; apply Z.eqb_neq; lia).
  assert (HT : 0 < inject_Z total) by (unfold Qlt; cbn; lia).
  assert (Hb : 0 <= percent rep <= 100).
  { rewrite Hp. split.
    - apply Qle_shift_div_l; [exact HT|]. unfold Qle; cbn; lia.
    - apply Qle_shift_div_r; [exact HT|]. unfold Qle; cbn; lia. }
  assert (H100 : (0 < 100)%Q) by reflexivity.
  split; [exact Hb|]. split; [|split].
  - rewrite Hf. apply py_int_bounds.
    + apply Qle_shift_div_l; [exact H100|]. rewrite Qmult_0_l.
      apply Qmult_le_0_compat; [discriminate | apply Hb].
    + apply Qle_shift_div_r; [exact H100|].
      apply Qle_trans with (20 * 100); [|apply Qle_refl].
      apply Qmult_le_l; [reflexivity | apply Hb].
  - destruct He as [-> | [Hs ->]]; [lia|]. apply py_int_nonneg.
    apply Qle_shift_div_l; [exact Hs|]. rewrite Qmult_0_l.
    unfold Qle, Qminus; cbn; lia.
  - intros <-.
    assert (Hpc : percent rep == 100).
    { rewrite Hp. destruct current as [|pc|pc]; try lia. unfold Qeq; cbn; lia. }
    split; [exact Hpc|]. rewrite Hf.
    rewrite (py_int_Qeq _ (inject_Z 20)); [reflexivity | |].
    + apply Qle_shift_div_l; [exact H100|]. rewrite Qmult_0_l.
      apply Qmult_le_0_compat; [discriminate | apply Hb].
    + rewrite Hpc. unfold Qeq; reflexivity.
Qed.

Lemma progress_report_bounds_witness :
  (0 <= 30 <= 100)%Z /\ (0 < 100)%Z /\
  exists rep lu, progress_for_pyrogram 5 50 ∅ 30 100 7 40 = Some (Some rep, lu) /\
    0 <= percent rep <= 100 /\ (0 <= filled_len rep <= 20)%Z /\ (0 <= eta rep)%Z /\
    (30%Z = 100%Z -> percent rep == 100 /\ filled_len rep = 20%Z).
Proof.
  assert (Hc : (0 <= 30 <= 100)%Z) by lia.
  assert (Ht : (0 < 100)%Z) by lia.
  split; [exact Hc|]. split; [exact Ht|].
  destruct (progress_for_pyrogram 5 50 ∅ 30 100 7 40) as [[[rep|] lu]|] eqn:E;
    [|vm_compute in E; discriminate..].
  exists rep, lu. split; [reflexivity|].
  exact (progress_report_bounds 5 50 ∅ 30 100 7 40 rep lu Hc Ht E).
Defined.

(** Extra: after a call that edited the message for a transfer still in
    progress, any further call for the same message less than [interval]
    seconds later returns early and changes nothing, unless it is the
    final call ([current = total]). *)
Theorem progress_throttles interval t lu0 c T msg_id st rep lu t' c' T' st' :
  progress_for_pyrogram interval t lu0 c T msg_id st = Some (Some rep, lu) ->
  c <> T -> c' <> T' -> t' - t < interval ->
  progress_for_pyrogram interval t' lu c' T' msg_id st' = Some (None, lu).
Proof.
  intros H HcT Hc'T' Ht.
  destruct (progress_shape _ _ _ _ _ _ _ _ _ H) as (_ & _ & _ & _ & Hlu).
  replace (c =? T)%Z with false in Hlu by (symmetry; apply Z.eqb_neq; exact HcT).
  unfold progress_for_pyrogram. rewrite Hlu, lookup_insert_eq.
  change (default 0 (Some t)) with t.
  replace (qlt (t' - t) interval) with true by (symmetry; apply qlt_ok; exact Ht).
  replace (c' =? T')%Z with false by (symmetry; apply Z.eqb_neq; exact Hc'T').
  reflexivity.
Qed.

Lemma progress_throttles_witness :
  exists rep lu,
    progress_for_pyrogram 5 100 ∅ 10 50 7 90 = Some (Some rep, lu) /\
    progress_for_pyrogram 5 103 lu 20 50 7 90 = Some (None, lu).
Proof.
  destruct (progress_for_pyrogram 5 100 ∅ 10 50 7 90) as [[[rep|] lu]|] eqn:E;
    [|vm_compute in E; discriminate..].
  exists rep, lu. split; [reflexivity|].
  refine (progress_throttles 5 100 ∅ 10 50 7 90 rep lu 103 20 50 90 E _ _ _);
    [discriminate | discriminate | reflexivity].
Defined.

(** Extra: the final call of a transfer ([current = total]) is never
    throttled: it always emits a report, and it removes the message's
    entry from [_last_update], leaving the other entries as they were. *)
Theorem progress_final_call interval now lu0 total msg_id start_time :
  exists rep lu,
    progress_for_pyrogram interval now lu0 total total msg_id start_time = Some (Some rep, lu) /\
    lu !! msg_id = None /\ forall m, m <> msg_id -> lu !! m = lu0 !! m.
Proof.
  destruct (progress_emits interval now lu0 total total msg_id start_time) as [rep Hrep].
  { rewrite Z.eqb_refl. apply andb_false_r. }
  rewrite Z.eqb_refl in Hrep.
  exists rep, (delete msg_id (<[msg_id := now]> lu0)). split; [exact Hrep|]. split.
  - apply lookup_delete_eq.
  - intros m Hm. rewrite lookup_delete_ne by congruence.
    apply lookup_insert_ne. congruence.
Qed.

(** Extra: [human_time] shows hours, minutes and seconds of the
    non-negative duration: [h = n / 3600], [m = n mod 3600 / 60],
    [s = n mod 60]; the hours only from one hour on, the minutes only
    from one minute on; a negative duration shows as [0s]. *)
Theorem human_time_hms (n : Z) :
  let h := (n / 3600)%Z in let m := (n mod 3600 / 60)%Z in let s := (n mod 60)%Z in
  ((3600 <= n)%Z -> human_time n = PyStr.py_str_int h +:+ "h " +:+ PyStr.py_str_int m
                                   +:+ "m " +:+ PyStr.py_str_int s +:+ "s") /\
  ((60 <= n < 3600)%Z -> human_time n = PyStr.py_str_int m +:+ "m " +:+ PyStr.py_str_int s +:+ "s") /\
  ((0 <= n < 60)%Z -> human_time n = PyStr.py_str_int n +:+ "s") /\
  ((n < 0)%Z -> human_time n = "0s").
Proof.
  intros h m s. unfold human_time.
  assert (Hh : forall n, (0 <= n)%Z -> (n / 60 / 60 = n / 3600)%Z).
  { intros k Hk. rewrite Z.div_div by lia. reflexivity. }
  assert (Hm : forall n, (0 <= n)%Z -> (n / 60 mod 60 = n mod 3600 / 60)%Z).
  { intros k Hk. pose proof (Z.mod_pos_bound k 3600) as Hb.
    assert (E : k = (k mod 3600 + (k / 3600 * 60) * 60)%Z)
      by (pose proof (Z.div_mod k 3600); lia).
    rewrite E at 1. rewrite Z.div_add, Z.mod_add by lia.
    apply Z.mod_small. split; [apply Z.div_pos; lia | apply Z.div_lt_upper_bound; lia]. }
  split; [|split; [|split]].
  - intros Hn. replace (n <? 0)%Z with false by (symmetry; apply Z.ltb_ge; lia).
    rewrite Hh, Hm by lia. fold h m.
    replace (negb (h =? 0)%Z) with true; [reflexivity|].
    symmetry. apply negb_true_iff, Z.eqb_neq. unfold h.
    assert (1 <= n / 3600)%Z by (apply Z.div_le_lower_bound; lia). lia.
  - intros Hn. replace (n <? 0)%Z with false by (symmetry; apply Z.ltb_ge; lia).
    rewrite Hh, Hm by lia. fold m.
    replace (n / 3600)%Z with 0%Z by (symmetry; apply Z.div_small; lia).
    replace (negb (m =? 0)%Z) with true; [reflexivity|].
    symmetry. apply negb_true_iff, Z.eqb_neq. unfold m.
    rewrite Z.mod_small by lia.
    assert (1 <= n / 60)%Z by (apply Z.div_le_lower_bound; lia). lia.
  - intros Hn. replace (n <? 0)%Z with false by (symmetry; apply Z.ltb_ge; lia).
    rewrite (Z.div_small n 60), (Z.mod_small n 60) by lia. reflexivity.
  - intros Hn. replace (n <? 0)%Z with true by (symmetry; apply Z.ltb_lt; lia).
    reflexivity.
Qed.

Lemma hb_loop_spec k : forall q n, 1 <= q ->
  exists v j, hb_loop k q n = (v, n + j)%nat /\ (j <= k)%nat /\
    v * inject_Z (1024 ^ Z.of_nat j) == q /\ 1 <= v /\ ((j < k)%nat -> v < 1024).
Proof.
  induction k as [|k IH]; intros q n Hq.
  - exists q, 0%nat. cbn. rewrite Nat.add_0_r. split; [reflexivity|].
    split; [lia|]. split; [apply Qmult_1_r|]. split; [exact Hq | lia].
  - cbn. destruct (Qle_bool 1024 q) eqn:E.
    + apply Qle_bool_iff in E.
      destruct (IH (q / 1024) (S n)) as (v & j & Hl & Hj & Hv & H1 & H2).
      { apply Qle_shift_div_l; [reflexivity|]. rewrite Qmult_1_l. exact E. }
      exists v, (S j). rewrite Hl, Nat.add_succ_r. split; [reflexivity|].
      split; [lia|]. split; [|split; [exact H1 | intros Hlt; apply H2; lia]].
      rewrite Nat2Z.inj_succ, Z.pow_succ_r by lia. rewrite inject_Z_mult.
      rewrite (Qmult_comm (inject_Z 1024)), Qmult_assoc, Hv.
      rewrite Qmult_comm. apply Qmult_div_r. discriminate.
    + exists q, 0%nat. rewrite Nat.add_0_r. split; [reflexivity|].
      split; [lia|]. split; [apply Qmult_1_r|]. split; [exact Hq|].
      intros _. apply Qnot_le_lt. intros Hle. apply Qle_bool_iff in Hle. congruence.
Qed.

(** Extra: for a positive size [human_bytes] divides by [1024] as long as
    the value is at least [1024], up to [TB]: the number it shows (before
    rounding to two decimals) is [size / 1024^n] with unit
    [power_labels[n]], it is at least [1], and below [1024] unless the
    unit is [TB]. *)
Theorem human_bytes_unit (size : Z) :
  (0 < size)%Z ->
  exists v n, human_bytes size = fmt2 v +:+ " " +:+ nth n power_labels "" /\
    (n <= 4)%nat /\ v * inject_Z (1024 ^ Z.of_nat n) == inject_Z size /\
    1 <= v /\ ((n < 4)%nat -> v < 1024).
Proof.
  intros Hs. unfold human_bytes.
  replace (size =? 0)%Z with false by (symmetry; apply Z.eqb_neq; lia).
  destruct (hb_loop_spec 4 (inject_Z size) 0) as (v & j & E & Hj & Hv & H1 & H2).
  { unfold Qle; cbn; lia. }
  rewrite E. exists v, j. cbn [Nat.add]. auto.
Qed.

Lemma human_bytes_unit_witness :
  (0 < 1536)%Z /\
  human_bytes 1536 = fmt2 (3 # 2) +:+ " " +:+ nth 1 power_labels "" /\
  exists v n, human_bytes 1536 = fmt2 v +:+ " " +:+ nth n power_labels "" /\
    (n <= 4)%nat /\ v * inject_Z (1024 ^ Z.of_nat n) == inject_Z 1536 /\
    1 <= v /\ ((n < 4)%nat -> v < 1024).
Proof.
  assert (H : (0 < 1536)%Z) by lia.
  split; [exact H|]. split; [vm_compute; reflexivity|].
  exact (human_bytes_unit 1536 H).
Defined.

End ProgressMore.

(* ================================================================== *)
(** ** Facts about the [users] collection *)
(* ================================================================== *)

Module UsersFacts.
Import Users.

Lemma users_lookup_insert_eq (db : users) i x : <[i := x]> db !! i = Some x.
Proof. apply lookup_insert_eq. Qed.

Lemma users_lookup_insert_ne (db : users) i j x : i <> j -> <[i := x]> db !! j = db !! j.
Proof. intros; apply lookup_insert_ne; assumption. Qed.

Lemma users_insert_insert (db : users) i x y : <[i := x]> (<[i := y]> db) = <[i := x]> db.
Proof. apply insert_insert_eq. Qed.

Lemma opt_str_eqb_refl d : opt_str_eqb (Some d) d = true.
Proof. cbn. apply String.eqb_refl. Qed.

(** A successful [get_or_create_user] on day [d] leaves the user's
    document in the collection, returned as is, with [last_reset = d]. *)
Lemma get_or_create_ok a d uid db u db1 :
  get_or_create_user a d uid db = (DbOk u, db1) ->
  db1 !! uid = Some u /\
  exists st, stats_f u = Some st /\ last_reset st = Some d.
Proof.
  unfold get_or_create_user. destruct (db !! uid) as [user|] eqn:Hu.
  - destruct (stats_f user) as [st|] eqn:Hs; [|discriminate].
    destruct (opt_str_eqb (last_reset st) d) eqn:Hd.
    + intros [= <- <-]. split; [exact Hu|]. exists st. split; [exact Hs|].
      destruct (last_reset st) as [t|]; [|discriminate].
      cbn in Hd. apply String.eqb_eq in Hd. subst. reflexivity.
    + intros [= <- <-]. split; [apply lookup_insert_eq|]. eexists. split; reflexivity.
  - intros [= <- <-]. split; [apply lookup_insert_eq|]. eexists. split; reflexivity.
Qed.

(** Extra: [get_or_create_user] is idempotent within a day: once it has
    succeeded on day [d], calling it again on day [d] returns the same
    document and changes nothing. *)
Theorem get_or_create_same_day a d uid db u db1 :
  get_or_create_user a d uid db = (DbOk u, db1) ->
  get_or_create_user a d uid db1 = (DbOk u, db1).
Proof.
  intros H. destruct (get_or_create_ok _ _ _ _ _ _ H) as (Hl & st & Hs & Hr).
  unfold get_or_create_user. rewrite Hl, Hs, Hr, opt_str_eqb_refl. reflexivity.
Qed.

Lemma get_or_create_same_day_witness :
  get_or_create_user 30 "2026-10-16" 555 ∅ =
    (DbOk (new_user 30 "2026-10-16"), <[555%Z := new_user 30 "2026-10-16"]> ∅) /\
  get_or_create_user 30 "2026-10-16" 555 (<[555%Z := new_user 30 "2026-10-16"]> ∅) =
    (DbOk (new_user 30 "2026-10-16"), <[555%Z := new_user 30 "2026-10-16"]> ∅).
Proof.
  assert (H : get_or_create_user 30 "2026-10-16" 555 ∅ =
    (DbOk (new_user 30 "2026-10-16"), <[555%Z := new_user 30 "2026-10-16"]> ∅))
    by reflexivity.
  split; [exact H|]. exact (get_or_create_same_day _ _ _ _ _ _ H).
Defined.

(** The task log of one user: [update_user_stats] at the given times
    with the given sizes. *)
Definition run_updates (uid : Z) (ops : list (Z * Q)) (db : users) : users :=
  fold_left (fun db '(t, sz) => update_user_stats t uid sz db) ops db.

Lemma run_updates_spec uid ops : forall db u st,
  db !! uid = Some u -> stats_f u = Some st ->
  exists u' st', run_updates uid ops db !! uid = Some u' /\ stats_f u' = Some st' /\
    last_reset st' = last_reset st /\
    daily_tasks st' = match ops with
                      | [] => daily_tasks st
                      | _ => Some (default 0 (daily_tasks st) + Z.of_nat (length ops))%Z
                      end.
Proof.
  unfold run_updates.
  induction ops as [|[t sz] ops IH]; intros db u st Hu Hs.
  - exists u, st. auto.
  - cbn [fold_left].
    set (st1 := {| last_reset := last_reset st;
                   daily_tasks := Some (default 0%Z (daily_tasks st) + 1)%Z;
                   daily_size_mb := Some (default 0%Q (daily_size_mb st) + sz)%Q;
                   last_task_ts := Some (Some t) |}).
    assert (E : update_user_stats t uid sz db = <[uid := with_stats u st1]> db).
    { unfold update_user_stats. rewrite Hu, Hs. reflexivity. }
    rewrite E.
    destruct (IH (<[uid := with_stats u st1]> db) (with_stats u st1) st1
                (lookup_insert_eq _ _ _) eq_refl)
      as (u' & st' & H1 & H2 & H3 & H4).
    exists u', st'. split; [exact H1|]. split; [exact H2|]. split; [exact H3|].
    rewrite H4. destruct ops; cbn [length]; f_equal; cbn; lia.
Qed.

(** Extra: the daily counter counts the tasks of the day.  After a
    successful [get_or_create_user] on day [d] and [k >= 1] calls of
    [update_user_stats], the user's [daily_tasks] has grown by [k] and a
    further [get_or_create_user] on day [d] keeps it, while on any other
    day it resets the counter to [0]. *)
Theorem daily_tasks_count a d uid db u db1 ops :
  get_or_create_user a d uid db = (DbOk u, db1) -> ops <> [] ->
  exists st u' st',
    stats_f u = Some st /\
    run_updates uid ops db1 !! uid = Some u' /\ stats_f u' = Some st' /\
    daily_tasks st' = Some (default 0 (daily_tasks st) + Z.of_nat (length ops))%Z /\
    get_or_create_user a d uid (run_updates uid ops db1) = (DbOk u', run_updates uid ops db1) /\
    (forall d' u'' db2, d' <> d ->
       get_or_create_user a d' uid (run_updates uid ops db1) = (DbOk u'', db2) ->
       exists st'', stats_f u'' = Some st'' /\ daily_tasks st'' = Some 0%Z).
Proof.
  intros H Hops. destruct (get_or_create_ok _ _ _ _ _ _ H) as (Hl & st & Hs & Hr).
  destruct (run_updates_spec uid ops db1 u st Hl Hs) as (u' & st' & H1 & H2 & H3 & H4).
  destruct ops as [|op ops]; [congruence|].
  exists st, u', st'. split; [exact Hs|]. split; [exact H1|]. split; [exact H2|].
  split; [exact H4|]. split.
  - unfold get_or_create_user. rewrite H1, H2, H3, Hr, opt_str_eqb_refl. reflexivity.
  - intros d' u'' db2 Hd. unfold get_or_create_user. rewrite H1, H2, H3, Hr.
    replace (opt_str_eqb (Some d) d') with false.
    + intros [= <- _]. eexists. split; reflexivity.
    + symmetry. cbn. apply String.eqb_neq. congruence.
Qed.

Lemma daily_tasks_count_witness :
  let db1 := <[555%Z := new_user 30 "2026-10-16"]> ∅ in
  get_or_create_user 30 "2026-10-16" 555 ∅ = (DbOk (new_user 30 "2026-10-16"), db1) /\
  [(100%Z, 2%Q); (200%Z, 3%Q)] <> [] /\
  exists st u' st',
    stats_f (new_user 30 "2026-10-16") = Some st /\
    run_updates 555 [(100%Z, 2%Q); (200%Z, 3%Q)] db1 !! 555%Z = Some u' /\
    stats_f u' = Some st' /\
    daily_tasks st' = Some (default 0 (daily_tasks st) + Z.of_nat 2)%Z /\
    get_or_create_user 30 "2026-10-16" 555 (run_updates 555 [(100%Z, 2%Q); (200%Z, 3%Q)] db1)
      = (DbOk u', run_updates 555 [(100%Z, 2%Q); (200%Z, 3%Q)] db1) /\
    (forall d' u'' db2, d' <> "2026-10-16" ->
       get_or_create_user 30 d' 555 (run_updates 555 [(100%Z, 2%Q); (200%Z, 3%Q)] db1)
         = (DbOk u'', db2) ->
       exists st'', stats_f u'' = Some st'' /\ daily_tasks st'' = Some 0%Z).
Proof.
  intros db1.
  assert (H : get_or_create_user 30 "2026-10-16" 555 ∅ = (DbOk (new_user 30 "2026-10-16"), db1))
    by reflexivity.
  assert (Hops : [(100%Z, 2%Q); (200%Z, 3%Q)] <> []) by discriminate.
  split; [exact H|]. split; [exact Hops|].
  exact (daily_tasks_count _ _ _ _ _ _ _ H Hops).
Defined.

(** Extra: [set_ban] then [is_banned] round trip: the flag just set is
    read back for that user, and no other user's answer changes. *)
Theorem set_ban_is_banned uid b v db :
  is_banned v (set_ban uid b db) = if (v =? uid)%Z then b else is_banned v db.
Proof.
  unfold is_banned, set_ban. destruct (Z.eqb_spec v uid) as [->|Hne].
  - destruct (db !! uid); rewrite users_lookup_insert_eq; reflexivity.
  - destruct (db !! uid); rewrite users_lookup_insert_ne by congruence; reflexivity.
Qed.

(** Extra: [set_ban] and [set_premium] upsert a document that has no
    [stats]; for a user the collection did not know, [get_or_create_user]
    then raises [KeyError], e.g. after the owner bans and unbans a user
    who never started the bot (who is then not banned). *)
Theorem upserted_user_breaks a d uid db b1 b2 v :
  db !! uid = None ->
  (fst (get_or_create_user a d uid (set_premium uid v db)) = KeyError) /\
  (let db' := set_ban uid b2 (set_ban uid b1 db) in
   is_banned uid db' = b2 /\ fst (get_or_create_user a d uid db') = KeyError).
Proof.
  intros Hn. split.
  - unfold get_or_create_user, set_premium. rewrite Hn, users_lookup_insert_eq. reflexivity.
  - cbn zeta. split.
    + unfold is_banned, set_ban. rewrite Hn, users_lookup_insert_eq, users_lookup_insert_eq.
      reflexivity.
    + unfold set_ban. rewrite Hn, users_lookup_insert_eq, users_insert_insert.
      unfold get_or_create_user. rewrite users_lookup_insert_eq. reflexivity.
Qed.

Lemma upserted_user_breaks_witness :
  (∅ : gmap Z user_doc) !! 555%Z = None /\
  (fst (get_or_create_user 30 "2026-10-16" 555 (set_premium 555 true ∅)) = KeyError) /\
  (let db' := set_ban 555 false (set_ban 555 true ∅) in
   is_banned 555 db' = false /\ fst (get_or_create_user 30 "2026-10-16" 555 db') = KeyError).
Proof.
  split; [reflexivity|].
  apply (upserted_user_breaks 30 "2026-10-16" 555 ∅ true false true). reflexivity.
Defined.

End UsersFacts.

(* ================================================================== *)
(** ** Facts about the bot's file-type, premium and caption helpers *)
(* ================================================================== *)

Module BotFacts.
Import PyStr BotHelpers.

Fixpoint last_char (s : string) : option ascii :=
  match s with
  | EmptyString => None
  | String c EmptyString => Some c
  | String _ s' => last_char s'
  end.

Lemma last_char_cons c s : s <> EmptyString -> last_char (String c s) = last_char s.
Proof. destruct s; [congruence|reflexivity]. Qed.

Lemma last_char_nonempty s : s <> EmptyString -> last_char s <> None.
Proof.
  induction s as [|c s IH]; [congruence|]. intros _.
  destruct s; [discriminate|]. rewrite last_char_cons by discriminate. apply IH; discriminate.
Qed.

Lemma ends_with_last s suf :
  ends_with s suf = true -> suf <> EmptyString -> last_char s = last_char suf.
Proof.
  induction s as [|c s IH]; intros H Hne; cbn [ends_with] in H;
    apply orb_true_iff in H; destruct H as [H|H].
  - apply String.eqb_eq in H. subst. reflexivity.
  - discriminate.
  - apply String.eqb_eq in H. subst. reflexivity.
  - specialize (IH H Hne). destruct s.
    + exfalso. apply (last_char_nonempty suf Hne). rewrite <- IH. reflexivity.
    + rewrite last_char_cons by discriminate. exact IH.
Qed.

Lemma existsb_last n l :
  existsb (ends_with n) l = true -> Forall (fun suf => suf <> EmptyString) l ->
  exists suf, In suf l /\ last_char n = last_char suf.
Proof.
  intros H Hl. apply existsb_exists in H. destruct H as (suf & Hin & H).
  exists suf. split; [exact Hin|]. apply ends_with_last; [exact H|].
  rewrite List.Forall_forall in Hl. apply Hl, Hin.
Qed.

(** Extra: no file name is both an archive and a video for the file
    keyboard: the suffixes of the two lists end in different characters. *)
Theorem archive_video_exclusive name :
  (is_archive_file name && is_video_file name)%bool = false.
Proof.
  unfold is_archive_file, is_video_file.
  destruct (existsb (ends_with (lower name)) ARCHIVE_SUFFIXES) eqn:Ha; [|reflexivity].
  destruct (existsb (ends_with (lower name)) VIDEO_EXT_SET) eqn:Hv; [|reflexivity].
  exfalso.
  destruct (existsb_last _ _ Ha) as (a & Hia & Hla);
    [repeat constructor; discriminate|].
  destruct (existsb_last _ _ Hv) as (v & Hiv & Hlv);
    [repeat constructor; discriminate|].
  rewrite Hla in Hlv. cbn in Hia, Hiv.
  repeat (destruct Hia as [<-|Hia]); try contradiction;
  repeat (destruct Hiv as [<-|Hiv]); try contradiction; discriminate.
Qed.

Local Open Scope Q_scope.

Lemma qlt_false a b : b <= a -> Progress.qlt a b = false.
Proof.
  intros H. destruct (Progress.qlt a b) eqn:E; [|reflexivity].
  apply ProgressMore.qlt_ok in E. exfalso. apply (Qlt_not_le _ _ E H).
Qed.

Lemma is_premium_user_captions tp uid st :
  user_caption_settings (snd (is_premium_user tp uid st)) = user_caption_settings st.
Proof.
  unfold is_premium_user. destruct (premium_until st !! uid); [|reflexivity].
  destruct (Qeq_bool q 0); [reflexivity|]. destruct (Progress.qlt q tp); reflexivity.
Qed.

(** Clock readings where each call comes at most a day after the
    [updated_at] stored by the one before. *)
Fixpoint fresh (last : Q) (clock : list (Q * Q * Q)) : Prop :=
  match clock with
  | [] => True
  | (now, _, tu) :: rest => now - last <= 86400 /\ fresh tu rest
  end.

Definition numbered (txt : string) (c : Z) : caption_cfg -> Prop :=
  fun cfg => base cfg = Some txt /\ counter cfg = Some c /\ rfrom cfg = None.

Lemma numbering_run uid dflt txt clock : forall c u st cfg,
  txt <> EmptyString ->
  user_caption_settings st !! uid = Some cfg -> numbered txt c cfg ->
  updated_at cfg = Some u -> fresh u clock ->
  fst (run_captions uid dflt clock st) =
    map (fun i => String.append (fmt03 (c + Z.of_nat i)%Z) (String.append " " txt))
        (seq 1 (length clock)).
Proof.
  induction clock as [|[[now tp] tu] clock IH]; intros c u st cfg Htxt Hl (Hb & Hc & Hr) Hu Hf;
    [reflexivity|].
  destruct Hf as [Hnow Hf].
  cbn [run_captions].
  assert (Hfalsy : cfg_falsy (Some cfg) = false) by (cbn; rewrite Hb; reflexivity).
  unfold build_caption, get_caption_cfg. rewrite Hl, Hfalsy.
  destruct (is_premium_user tp uid st) as [prem st1] eqn:Hp.
  pose proof (is_premium_user_captions tp uid st) as Hcap. rewrite Hp in Hcap. cbn in Hcap.
  rewrite Hu. change (default 0 (Some u)) with u.
  rewrite (qlt_false _ _ Hnow), andb_false_r, Hfalsy, Hb.
  assert (Ht : str_truthy (Some txt) = true).
  { cbn. apply negb_true_iff, String.eqb_neq. exact Htxt. }
  rewrite Ht, Hc, Hr. change (default 0%Z (Some c)) with c.
  cbn [rfrom base counter rto updated_at].
  set (cfg2 := {| base := Some txt; counter := Some (c + 1)%Z; rfrom := None;
                  rto := rto cfg; updated_at := Some tu |}).
  destruct (run_captions uid dflt clock
              (set_captions (<[uid:=cfg2]> (user_caption_settings st1)) st1)) as [cs st2] eqn:Hrun.
  cbn [fst].
  pose proof (IH (c + 1)%Z tu (set_captions (<[uid:=cfg2]> (user_caption_settings st1)) st1)
                cfg2 Htxt (lookup_insert_eq _ _ _)
                (conj eq_refl (conj eq_refl eq_refl)) eq_refl Hf) as IH'.
  rewrite Hrun in IH'. cbn [fst] in IH'. rewrite IH'.
  cbn [seq map length].
  replace (seq 2 (length clock)) with (map S (seq 1 (length clock))) by apply seq_shift.
  rewrite map_map. replace (c + Z.of_nat 1)%Z with (c + 1)%Z by lia. f_equal.
  apply map_ext. intros i. replace (c + Z.of_nat (S i))%Z with (c + 1 + Z.of_nat i)%Z by lia.
  reflexivity.
Qed.

(** Extra: numbered captions.  When a user without caption settings sets
    a non-empty caption [txt] at [t0], the videos captioned afterwards,
    each within a day of the one before, get [001 txt], [002 txt], ...,
    whatever the default caption. *)
Theorem caption_numbering uid dflt txt t0 clock st :
  user_caption_settings st !! uid = None -> txt <> EmptyString -> fresh t0 clock ->
  fst (run_captions uid dflt clock (set_caption_base t0 uid txt st)) =
    map (fun i => String.append (fmt03 (Z.of_nat i)) (String.append " " txt))
        (seq 1 (length clock)).
Proof.
  intros Hn Htxt Hf.
  rewrite (numbering_run uid dflt txt clock 0%Z t0 _
             {| base := Some txt; counter := Some 0%Z; rfrom := None; rto := None;
                updated_at := Some t0 |} Htxt).
  - reflexivity.
  - unfold set_caption_base. rewrite Hn. apply lookup_insert_eq.
  - repeat split.
  - reflexivity.
  - exact Hf.
Qed.

Lemma caption_numbering_witness :
  let st := {| premium_until := ∅; user_caption_settings := ∅ |} in
  let clock := [(10, 10, 11); (5000, 5000, 5001); (90000, 90000, 90001)] in
  user_caption_settings st !! 7%Z = None /\ "Clip"%string <> EmptyString /\ fresh 1 clock /\
  fst (run_captions 7 "video.mp4" clock (set_caption_base 1 7 "Clip" st)) =
    map (fun i => String.append (fmt03 (Z.of_nat i)) (String.append " " "Clip"))
        (seq 1 (length clock)).
Proof.
  intros st clock.
  assert (H1 : user_caption_settings st !! 7%Z = None) by reflexivity.
  assert (H2 : "Clip"%string <> EmptyString) by discriminate.
  assert (H3 : fresh 1 clock) by (cbn; repeat split; vm_compute; discriminate).
  split; [exact H1|]. split; [exact H2|]. split; [exact H3|].
  exact (caption_numbering 7 "video.mp4" "Clip" 1 clock st H1 H2 H3).
Defined.

Lemma is_premium_user_expired tp uid st :
  (forall t, premium_until st !! uid = Some t -> 0 < t /\ t < tp) ->
  is_premium_user tp uid st =
    (false, set_premium_until (delete uid (premium_until st)) st).
Proof.
  intros H. unfold is_premium_user. destruct (premium_until st !! uid) as [t|] eqn:E.
  - destruct (H t eq_refl) as [Hpos Hlt].
    destruct (Qeq_bool t 0) eqn:Ez.
    + apply Qeq_bool_eq in Ez. rewrite Ez in Hpos. discriminate.
    + apply ProgressMore.qlt_ok in Hlt. rewrite Hlt. reflexivity.
  - unfold set_premium_until. rewrite delete_id by exact E. destruct st; reflexivity.
Qed.

(** Extra: caption rules expire for users who are not premium.  When the
    user has no premium entry or only an expired one, and the rules were
    last used more than a day ago, [build_caption] returns the default
    caption and drops the rules and the expired premium entry. *)
Theorem caption_expires now tp tu uid dflt st cfg :
  (forall t, premium_until st !! uid = Some t -> 0 < t /\ t < tp) ->
  user_caption_settings st !! uid = Some cfg -> cfg_falsy (Some cfg) = false ->
  86400 < now - default 0 (updated_at cfg) ->
  fst (build_caption now tp tu uid dflt st) = dflt /\
  user_caption_settings (snd (build_caption now tp tu uid dflt st)) !! uid = None /\
  premium_until (snd (build_caption now tp tu uid dflt st)) !! uid = None.
Proof.
  intros Hp Hl Hf Hold.
  assert (E : build_caption now tp tu uid dflt st =
     (dflt, set_captions (delete uid (user_caption_settings st))
              (set_premium_until (delete uid (premium_until st)) st))).
  { unfold build_caption, get_caption_cfg. rewrite Hl, Hf.
    rewrite (is_premium_user_expired tp uid st Hp).
    apply ProgressMore.qlt_ok in Hold. rewrite Hold. reflexivity. }
  rewrite E. cbn. split; [reflexivity|]. split; apply lookup_delete_eq.
Qed.

Lemma caption_expires_witness :
  let cfg := {| base := Some "Clip"; counter := Some 4%Z; rfrom := None; rto := None;
                updated_at := Some 1000 |} in
  let st := {| premium_until := <[7%Z := 500]> ∅;
               user_caption_settings := <[7%Z := cfg]> ∅ |} in
  (forall t, premium_until st !! 7%Z = Some t -> 0 < t /\ t < 100000) /\
  user_caption_settings st !! 7%Z = Some cfg /\ cfg_falsy (Some cfg) = false /\
  86400 < 100000 - default 0 (updated_at cfg) /\
  (fst (build_caption 100000 100000 100001 7 "video.mp4" st) = "video.mp4" /\
   user_caption_settings (snd (build_caption 100000 100000 100001 7 "video.mp4" st)) !! 7%Z
     = None /\
   premium_until (snd (build_caption 100000 100000 100001 7 "video.mp4" st)) !! 7%Z = None).
Proof.
  intros cfg st.
  assert (H1 : forall t, premium_until st !! 7%Z = Some t -> 0 < t /\ t < 100000).
  { intros t Ht. cbn in Ht. injection Ht as <-. split; reflexivity. }
  assert (H2 : user_caption_settings st !! 7%Z = Some cfg) by reflexivity.
  assert (H3 : cfg_falsy (Some cfg) = false) by reflexivity.
  assert (H4 : 86400 < 100000 - default 0 (updated_at cfg)) by reflexivity.
  split; [exact H1|]. split; [exact H2|]. split; [exact H3|]. split; [exact H4|].
  exact (caption_expires 100000 100000 100001 7 "video.mp4" st cfg H1 H2 H3 H4).
Defined.

(** Extra: caption rules of a premium user do not expire.  After
    [/premium] grants [days] days at time [g >= 0] ([days <= 0] counts as
    ten), [get_caption_cfg] keeps returning the rules, however old,
    until the grant ends, and changes nothing. *)
Theorem premium_keeps_caption g days uid now tp st cfg :
  0 <= g -> user_caption_settings st !! uid = Some cfg -> cfg_falsy (Some cfg) = false ->
  tp <= g + inject_Z ((if (days <=? 0)%Z then 10%Z else days) * 86400) ->
  get_caption_cfg now tp uid (grant_premium g uid days st) =
    (Some cfg, grant_premium g uid days st).
Proof.
  intros Hg Hl Hf Htp.
  set (d := if (days <=? 0)%Z then 10%Z else days) in *.
  assert (Hd : (0 < d * 86400)%Z) by (subst d; destruct (Z.leb_spec days 0); lia).
  assert (Hpos : 0 < g + inject_Z (d * 86400)).
  { rewrite Qplus_comm. rewrite <- (Qplus_0_r 0).
    apply Qplus_lt_le_compat; [|exact Hg]. rewrite Zlt_Qlt in Hd. exact Hd. }
  unfold get_caption_cfg. cbn [user_caption_settings grant_premium set_premium_until].
  rewrite Hl, Hf. unfold is_premium_user.
  replace (premium_until (grant_premium g uid days st) !! uid)
    with (Some (g + inject_Z (d * 86400))) by (symmetry; apply lookup_insert_eq).
  destruct (Qeq_bool (g + inject_Z (d * 86400)) 0) eqn:Ez.
  - apply Qeq_bool_eq in Ez. rewrite Ez in Hpos. discriminate.
  - rewrite (qlt_false _ _ Htp). reflexivity.
Qed.

Lemma premium_keeps_caption_witness :
  let cfg := {| base := Some "Clip"; counter := Some 4%Z; rfrom := None; rto := None;
                updated_at := Some 1000 |} in
  let st := {| premium_until := ∅; user_caption_settings := <[7%Z := cfg]> ∅ |} in
  0 <= 2000 /\ user_caption_settings st !! 7%Z = Some cfg /\ cfg_falsy (Some cfg) = false /\
  500000 <= 2000 + inject_Z ((if (0 <=? 0)%Z then 10%Z else 0%Z) * 86400) /\
  get_caption_cfg 500000 500000 7 (grant_premium 2000 7 0 st) =
    (Some cfg, grant_premium 2000 7 0 st).
Proof.
  intros cfg st.
  assert (H1 : 0 <= 2000) by discriminate.
  assert (H2 : user_caption_settings st !! 7%Z = Some cfg) by reflexivity.
  assert (H3 : cfg_falsy (Some cfg) = false) by reflexivity.
  assert (H4 : 500000 <= 2000 + inject_Z ((if (0 <=? 0)%Z then 10%Z else 0%Z) * 86400))
    by discriminate.
  split; [exact H1|]. split; [exact H2|]. split; [exact H3|]. split; [exact H4|].
  exact (premium_keeps_caption 2000 0 7 500000 500000 st cfg H1 H2 H3 H4).
Defined.

(** Extra: a replace rule with an empty replacement is never applied.
    The settings reply accepts [old -> ] (an empty [new]), but
    [build_caption] only replaces when both words are non-empty: for a
    user without other caption settings the caption stays the default
    one, while a non-empty [new] replaces every [old] in it. *)
Theorem replace_rule_needs_text t now tp tu uid dflt old new st :
  user_caption_settings st !! uid = None -> old <> EmptyString -> now - t <= 86400 ->
  fst (build_caption now tp tu uid dflt (set_replace_rule t uid old new st)) =
    if String.eqb new "" then dflt else py_replace dflt old new.
Proof.
  intros Hn Hold Ht.
  unfold build_caption, get_caption_cfg, set_replace_rule.
  cbn [user_caption_settings set_captions]. rewrite Hn.
  cbn [cfg_falsy default]. rewrite lookup_insert_eq. cbn [cfg_falsy].
  destruct (is_premium_user tp uid _) as [prem st1].
  cbn [cfg_falsy base counter empty_cfg rfrom rto updated_at].
  change (default 0 (Some t)) with t. rewrite (qlt_false _ _ Ht), andb_false_r.
  cbn [cfg_falsy base counter empty_cfg rfrom rto updated_at str_truthy].
  replace (negb (String.eqb old "")) with true
    by (symmetry; apply negb_true_iff, String.eqb_neq; exact Hold).
  cbn [andb fst]. destruct (String.eqb new ""); reflexivity.
Qed.

Lemma replace_rule_needs_text_witness :
  let st := {| premium_until := ∅; user_caption_settings := ∅ |} in
  user_caption_settings st !! 7%Z = None /\ "SAMPLE"%string <> EmptyString /\
  200 - 100 <= 86400 /\
  fst (build_caption 200 200 201 7 "SAMPLE clip" (set_replace_rule 100 7 "SAMPLE" "" st)) =
    (if String.eqb "" "" then "SAMPLE clip" else py_replace "SAMPLE clip" "SAMPLE" "")%string.
Proof.
  intros st.
  assert (H1 : user_caption_settings st !! 7%Z = None) by reflexivity.
  assert (H2 : "SAMPLE"%string <> EmptyString) by discriminate.
  assert (H3 : 200 - 100 <= 86400) by discriminate.
  split; [exact H1|]. split; [exact H2|]. split; [exact H3|].
  exact (replace_rule_needs_text 100 200 200 201 7 "SAMPLE clip" "SAMPLE" "" st H1 H2 H3).
Defined.

End BotFacts.

(* ================================================================== *)
(** ** More facts about the link parser *)
(* ================================================================== *)

Module LinkMore.
Import PyStr LinkParser LinkFacts.

Definition nonspace (c : ascii) : bool := negb (is_space c).
Definition nonpunct (c : ascii) : bool := negb (punct c).

Lemma lower_char_fixed c : (is_space c || punct c)%bool = true -> lower_char c = c.
Proof. ascii_cases c. Qed.

Lemma letter_keep c lc :
  lower_char c = lc -> is_space lc = false -> punct lc = false ->
  is_space c = false /\ punct c = false.
Proof.
  intros Hl Hs Hp.
  destruct (is_space c || punct c)%bool eqn:E.
  - rewrite (lower_char_fixed c E) in Hl. subst lc. rewrite Hs, Hp in E. discriminate.
  - apply orb_false_iff in E. exact E.
Qed.

Lemma ieq_lower c lc : ieq c lc = true -> lower_char c = lc.
Proof. unfold ieq. apply Ascii.eqb_eq. Qed.

Lemma take_ci_some lc s c s' :
  take_ci lc s = Some (c, s') -> s = String c s' /\ lower_char c = lc.
Proof.
  destruct s as [|d s]; cbn; [discriminate|].
  destruct (ieq d lc) eqn:E; [|discriminate]. intros [= <- <-].
  split; [reflexivity|]. apply ieq_lower, E.
Qed.

Lemma span_nonspace_all s : all_chars nonspace (fst (span_nonspace s)) = true.
Proof.
  induction s as [|c s IH]; cbn [span_nonspace]; [reflexivity|].
  destruct (is_space c) eqn:E; [reflexivity|].
  destruct (span_nonspace s) as [w r]. cbn [fst all_chars] in *.
  unfold nonspace at 1. rewrite E, IH. reflexivity.
Qed.

(** A scheme letter of the pattern: neither a space nor [.,)]. *)
Definition scheme_char (c : ascii) : bool := (nonspace c && nonpunct c)%bool.

Lemma scheme_letter c lc :
  lower_char c = lc -> is_space lc = false -> punct lc = false -> scheme_char c = true.
Proof.
  intros Hl Hs Hp. destruct (letter_keep c lc Hl Hs Hp) as [H1 H2].
  unfold scheme_char, nonspace, nonpunct. rewrite H1, H2. reflexivity.
Qed.

Lemma match_at_shape s m rest :
  match_at s = Some (m, rest) ->
  exists h pre w, m = String h pre +:+ "://" +:+ w /\
    (lower (String h pre) = "http" \/ lower (String h pre) = "https") /\
    all_chars scheme_char (String h pre) = true /\
    all_chars nonspace w = true /\ w <> EmptyString.
Proof.
  unfold match_at.
  destruct (take_ci "h" s) as [[h s1]|] eqn:E1; [|discriminate].
  destruct (take_ci "t" s1) as [[t1 s2]|] eqn:E2; [|discriminate].
  destruct (take_ci "t" s2) as [[t2 s3]|] eqn:E3; [|discriminate].
  destruct (take_ci "p" s3) as [[p r]|] eqn:E4; [|discriminate].
  apply take_ci_some in E1 as [_ L1]. apply take_ci_some in E2 as [_ L2].
  apply take_ci_some in E3 as [_ L3]. apply take_ci_some in E4 as [_ L4].
  destruct (take_ci "s" r) as [[sc r']|] eqn:E5.
  - apply take_ci_some in E5 as [_ L5].
    destruct (take_ci ":" r') as [[? r2]|]; [|discriminate].
    destruct (take_ci "/" r2) as [[? r3]|]; [|discriminate].
    destruct (take_ci "/" r3) as [[? r4]|]; [|discriminate].
    pose proof (span_nonspace_all r4) as Hw.
    destruct (span_nonspace r4) as [w rest'].
    destruct w as [|wc w']; [discriminate|]. intros [= <- _].
    exists h, (String t1 (String t2 (String p (String sc EmptyString)))), (String wc w').
    split; [reflexivity|]. split.
    + right. cbn. rewrite L1, L2, L3, L4, L5. reflexivity.
    + split; [|split; [exact Hw|discriminate]].
      cbn [all_chars].
      rewrite (scheme_letter h _ L1), (scheme_letter t1 _ L2), (scheme_letter t2 _ L3),
        (scheme_letter p _ L4), (scheme_letter sc _ L5) by reflexivity.
      reflexivity.
  - destruct (take_ci ":" r) as [[? r2]|]; [|discriminate].
    destruct (take_ci "/" r2) as [[? r3]|]; [|discriminate].
    destruct (take_ci "/" r3) as [[? r4]|]; [|discriminate].
    pose proof (span_nonspace_all r4) as Hw.
    destruct (span_nonspace r4) as [w rest'].
    destruct w as [|wc w']; [discriminate|]. intros [= <- _].
    exists h, (String t1 (String t2 (String p EmptyString))), (String wc w').
    split; [reflexivity|]. split.
    + left. cbn. rewrite L1, L2, L3, L4. reflexivity.
    + split; [|split; [exact Hw|discriminate]].
      cbn [all_chars].
      rewrite (scheme_letter h _ L1), (scheme_letter t1 _ L2), (scheme_letter t2 _ L3),
        (scheme_letter p _ L4) by reflexivity.
      reflexivity.
Qed.

Lemma scan_in fuel s x :
  In x (scan fuel s) -> exists s0 m rest, match_at s0 = Some (m, rest) /\ x = clean m.
Proof.
  revert s. induction fuel as [|fuel IH]; intros s; cbn; [contradiction|].
  destruct s as [|c s']; [contradiction|].
  destruct (match_at (String c s')) as [[m rest]|] eqn:E.
  - intros [<-|Hin]; [eauto|]. exact (IH _ Hin).
  - apply IH.
Qed.

Lemma rstrip_idem p s : rstrip_by p (rstrip_by p s) = rstrip_by p s.
Proof.
  induction s as [|c s IH]; cbn; [reflexivity|].
  destruct (rstrip_by p s) as [|a s0] eqn:E.
  - destruct (p c) eqn:Pc; cbn; [reflexivity|]. rewrite Pc. reflexivity.
  - cbn [rstrip_by]. cbn [rstrip_by] in IH. rewrite IH. reflexivity.
Qed.

Lemma rstrip_all q p s : all_chars q s = true -> all_chars q (rstrip_by p s) = true.
Proof.
  induction s as [|c s IH]; [reflexivity|].
  intros H. change ((q c && all_chars q s)%bool = true) in H.
  apply andb_prop in H as [Hc Hs]. specialize (IH Hs).
  change (all_chars q (match rstrip_by p s with
                       | EmptyString => if p c then EmptyString else String c EmptyString
                       | r => String c r end) = true).
  destruct (rstrip_by p s) as [|a s0].
  - destruct (p c); [reflexivity|]. cbn. rewrite Hc. reflexivity.
  - change ((q c && all_chars q (String a s0))%bool = true). rewrite Hc, IH. reflexivity.
Qed.

Lemma all_chars_weaken (p q : ascii -> bool) s :
  (forall c, p c = true -> q c = true) -> all_chars p s = true -> all_chars q s = true.
Proof.
  intros Hpq. induction s as [|c s IH]; cbn; [reflexivity|].
  intros H. apply andb_prop in H as [Hc Hs]. rewrite (Hpq c Hc). apply IH, Hs.
Qed.

Lemma scheme_nonspace c : scheme_char c = true -> nonspace c = true.
Proof. unfold scheme_char. intros H. apply andb_prop in H. apply H. Qed.

Lemma scheme_nonpunct c : scheme_char c = true -> negb (punct c) = true.
Proof. unfold scheme_char. intros H. apply andb_prop in H. apply H. Qed.

(** A string without spaces whose first character is not a space is
    its own [strip()]. *)
Lemma strip_nonspace s : all_chars nonspace s = true -> strip s = s.
Proof.
  intros H. unfold strip, strip_by.
  assert (Hl : lstrip_by is_space s = s).
  { destruct s as [|c s]; [reflexivity|]. cbn in H |- *.
    apply andb_prop in H as [Hc _]. unfold nonspace in Hc.
    destruct (is_space c); [discriminate|reflexivity]. }
  rewrite Hl. apply rstrip_id. exact H.
Qed.

(** The text before the host: the scheme and [://]. *)
Lemma scheme_part h pre :
  all_chars scheme_char (String h pre) = true ->
  all_chars scheme_char (String h pre +:+ "://") = true.
Proof.
  intros H. rewrite all_chars_app, H. reflexivity.
Qed.

Lemma clean_match h pre w :
  all_chars scheme_char (String h pre) = true -> all_chars nonspace w = true ->
  let A := String h pre +:+ "://" in
  exists w', clean (A +:+ w) = A +:+ w' /\ all_chars nonspace w' = true /\
    (w' = EmptyString \/ (w' = rstrip_by punct w /\ all_chars punct w = false)).
Proof.
  intros Hpre Hw A.
  assert (HA : all_chars scheme_char A = true) by (apply scheme_part, Hpre).
  assert (HAs : all_chars nonspace A = true)
    by (apply (all_chars_weaken scheme_char); [exact scheme_nonspace|exact HA]).
  assert (HAp : all_chars (fun c => negb (punct c)) A = true)
    by (apply (all_chars_weaken scheme_char); [exact scheme_nonpunct|exact HA]).
  assert (Hh : punct h = false).
  { cbn in Hpre. apply andb_prop in Hpre as [Hh _]. unfold scheme_char, nonpunct in Hh.
    apply andb_prop in Hh as [_ Hh]. destruct (punct h); [discriminate|reflexivity]. }
  unfold clean. rewrite strip_nonspace by (rewrite all_chars_app, HAs, Hw; reflexivity).
  unfold strip_punct, strip_by.
  replace (lstrip_by punct (A +:+ w)) with (A +:+ w)
    by (unfold A; cbn [String.append lstrip_by]; rewrite Hh; reflexivity).
  rewrite rstrip_app. destruct (all_chars punct w) eqn:Ew.
  - exists EmptyString. rewrite app_nil_str, rstrip_id by exact HAp.
    split; [reflexivity|]. split; [reflexivity|]. left; reflexivity.
  - exists (rstrip_by punct w). split; [reflexivity|]. split.
    + apply rstrip_all, Hw.
    + right. split; reflexivity.
Qed.

(** Extra: the shape of the links [find_links_in_text] returns.  Each
    one starts with [http://] or [https://] in any letter case, holds no
    whitespace, and is left unchanged by the cleaning
    [.strip().strip(".,)")] the function applies to each match. *)
Theorem find_links_shape text x :
  In x (find_links_in_text text) ->
  (exists pre rest, x = pre +:+ "://" +:+ rest /\
     (lower pre = "http" \/ lower pre = "https")) /\
  all_chars nonspace x = true /\ clean x = x.
Proof.
  intros Hin. apply scan_in in Hin as (s0 & m & rest & Hm & ->).
  destruct (match_at_shape _ _ _ Hm) as (h & pre & w & -> & Hlow & Hpre & Hw & _).
  assert (HA : all_chars scheme_char (String h pre +:+ "://") = true)
    by (apply scheme_part, Hpre).
  assert (HAs : all_chars nonspace (String h pre +:+ "://") = true)
    by (apply (all_chars_weaken scheme_char); [exact scheme_nonspace|exact HA]).
  assert (HAp : all_chars (fun c => negb (punct c)) (String h pre +:+ "://") = true)
    by (apply (all_chars_weaken scheme_char); [exact scheme_nonpunct|exact HA]).
  rewrite app_assoc_str.
  destruct (clean_match h pre w Hpre Hw) as (w' & Hc & Hw' & Hcase). cbv zeta in Hc.
  rewrite Hc. split; [|split].
  - exists (String h pre), w'. split; [symmetry; apply app_assoc_str|exact Hlow].
  - rewrite all_chars_app, HAs, Hw'. reflexivity.
  - assert (Hh : punct h = false).
    { cbn in Hpre. apply andb_prop in Hpre as [Hh _]. unfold scheme_char, nonpunct in Hh.
      apply andb_prop in Hh as [_ Hh]. destruct (punct h); [discriminate|reflexivity]. }
    unfold clean. rewrite strip_nonspace by (rewrite all_chars_app, HAs, Hw'; reflexivity).
    unfold strip_punct, strip_by.
    replace (lstrip_by punct ((String h pre +:+ "://") +:+ w'))
      with ((String h pre +:+ "://") +:+ w')
      by (cbn [String.append lstrip_by]; rewrite Hh; reflexivity).
    destruct Hcase as [->|[-> Hnp]].
    + rewrite app_nil_str. apply rstrip_id, HAp.
    + rewrite rstrip_app.
      destruct (all_chars punct (rstrip_by punct w)) eqn:E.
      * apply rstrip_nil_iff in E. rewrite rstrip_idem in E.
        apply rstrip_nil_iff in E. congruence.
      * rewrite rstrip_idem. reflexivity.
Qed.

Lemma find_links_shape_witness :
  In "HTTPS://a.io/v.mp4"%string
     (find_links_in_text "see (HTTPS://a.io/v.mp4), or http://b.io/x.zip.") /\
  ((exists pre rest, "HTTPS://a.io/v.mp4"%string = pre +:+ "://" +:+ rest /\
     (lower pre = "http" \/ lower pre = "https")) /\
   all_chars nonspace "HTTPS://a.io/v.mp4" = true /\
   clean "HTTPS://a.io/v.mp4" = "HTTPS://a.io/v.mp4"%string).
Proof.
  assert (H : In "HTTPS://a.io/v.mp4"%string
     (find_links_in_text "see (HTTPS://a.io/v.mp4), or http://b.io/x.zip."))
    by (vm_compute; left; reflexivity).
  split; [exact H|]. exact (find_links_shape _ _ H).
Defined.

Lemma lstrip_lower s : lstrip_by is_space (lower s) = lower (lstrip_by is_space s).
Proof.
  induction s as [|c s IH]; cbn; [reflexivity|].
  rewrite is_space_lower_char. destruct (is_space c); [exact IH|reflexivity].
Qed.

Lemma rstrip_lower s : rstrip_by is_space (lower s) = lower (rstrip_by is_space s).
Proof.
  induction s as [|c s IH]; cbn; [reflexivity|].
  rewrite IH, is_space_lower_char. destruct (rstrip_by is_space s); cbn; [|reflexivity].
  destruct (is_space c); reflexivity.
Qed.

Lemma strip_lower s : strip (lower s) = lower (strip s).
Proof. unfold strip, strip_by. rewrite lstrip_lower, rstrip_lower. reflexivity. Qed.

Lemma lower_idem s : lower (lower s) = lower s.
Proof. induction s as [|c s IH]; cbn; [reflexivity|]. rewrite lower_char_idem, IH. reflexivity. Qed.

Lemma lstrip_head p s :
  lstrip_by p s = EmptyString \/ exists c s', lstrip_by p s = String c s' /\ p c = false.
Proof.
  induction s as [|c s IH]; cbn; [left; reflexivity|].
  destruct (p c) eqn:E; [exact IH|]. right. eauto.
Qed.

Lemma strip_idem s : strip (strip s) = strip s.
Proof.
  unfold strip, strip_by.
  destruct (lstrip_head is_space s) as [->|(c & s' & -> & Hc)]; [reflexivity|].
  destruct (rstrip_keep is_space c s' Hc) as [x Hx]. rewrite Hx.
  cbn [lstrip_by]. rewrite Hc, <- Hx. apply rstrip_idem.
Qed.

(** Extra: [classify_link] ignores letter case and surrounding
    whitespace: a URL, its lowercase form and its stripped form get the
    same category. *)
Theorem classify_link_normalised url :
  classify_link (lower url) = classify_link url /\
  classify_link (strip url) = classify_link url.
Proof.
  unfold classify_link. split.
  - rewrite strip_lower, lower_idem. reflexivity.
  - rewrite strip_idem. reflexivity.
Qed.

Lemma first_seen_from_in seen l y :
  In y (first_seen_from seen l) <-> In y l /\ mem_str y seen = false.
Proof.
  revert seen. induction l as [|x l IH]; intros seen; cbn; [tauto|].
  destruct (mem_str x seen) eqn:Ex.
  - rewrite IH. split; [tauto|]. intros [[->|Hy] Hm]; [congruence|tauto].
  - cbn. rewrite IH, mem_str_app, mem_str_single. split.
    + intros [->|[Hy Hm]]; [tauto|]. apply orb_false_iff in Hm. tauto.
    + intros [[->|Hy] Hm]; [tauto|].
      destruct (String.eqb_spec y x) as [->|Hne]; [tauto|].
      right. split; [exact Hy|]. rewrite Hm. reflexivity.
Qed.

(** Extra: the category lists of [extract_links_from_folder] hold exactly
    the links met in the scanned files that [classify_link] puts in that
    category: none is lost and none is filed under another one. *)
Theorem folder_links_exact is_link_file files k u :
  In u (extract_links_from_folder is_link_file files k) <->
  In u (urls_met is_link_file files) /\ classify_link u = k.
Proof.
  unfold extract_links_from_folder. rewrite fold_scan_file. cbn [empty_links List.app].
  rewrite first_seen_from_in, List.filter_In, kind_eqb_true. cbn. tauto.
Qed.

End LinkMore.

(* ================================================================== *)
(** ** More facts about the batch download handler *)
(* ================================================================== *)

Module BatchMore.
Import LinkParser Batch BatchFacts.

Lemma trace_in_code_order g env links o tr f :
  handle_links_download_all g env links = (o, tr) -> In f tr -> In f (code_order g links).
Proof.
  intros H Hin. unfold code_order.
  destruct (direct_loop_sub env (candidate_direct links) init) as (l1 & E1 & S1).
  destruct (gdrive_loop_sub g env (pick Gdrive links)
              (direct_loop env (candidate_direct links) init)) as (l2 & E2 & S2).
  destruct (m3u8_loop_sub env (pick M3u8 links)
              (gdrive_loop g env (pick Gdrive links)
                 (direct_loop env (candidate_direct links) init))) as (l3 & E3 & S3).
  rewrite E2, E1, trace_init in E3. rewrite E1, trace_init in E2.
  assert (Hsub : tr `sublist_of`
                 map FDirect (candidate_direct links)
                 ++ map FGdrive (List.filter (resolved g) (pick Gdrive links))
                 ++ map FMenu (pick M3u8 links)).
  { destruct (handle_shape g env links _ _ H)
      as [[_ ->]|[[_ ->]|[_ [[_ ->]|(_ & _ & ->)]]]].
    - apply sublist_nil_l.
    - rewrite E2. cbn. rewrite <- (app_nil_r l2).
      apply sublist_app; [exact S1|]. apply sublist_app; [exact S2 | apply sublist_nil_l].
    - rewrite E3. cbn. rewrite <- app_assoc.
      apply sublist_app; [exact S1|]. apply sublist_app; [exact S2 | exact S3].
    - rewrite E3. cbn. rewrite <- app_assoc.
      apply sublist_app; [exact S1|]. apply sublist_app; [exact S2 | exact S3]. }
  apply list_elem_of_In. apply list_elem_of_In in Hin.
  exact (elem_of_sublist _ _ _ Hin Hsub).
Qed.

Lemma pick_in k links u : In u (pick k links) -> classify_link u = k.
Proof.
  unfold pick. rewrite List.filter_In. intros [_ H]. apply LinkFacts.kind_eqb_true, H.
Qed.

(** Extra: what the batch handler fetches matches the link categories.
    A direct fetch is only started for a direct or unknown link, a Drive
    fetch only for a Drive link that resolved, a quality menu only for an
    m3u8 link; Telegram links are never fetched, and a message whose
    links are all Telegram links ends early with nothing started. *)
Theorem batch_fetch_kinds g env links o tr :
  handle_links_download_all g env links = (o, tr) ->
  (forall f, In f tr ->
     match f with
     | FDirect u => classify_link u = Direct \/ classify_link u = Unknown
     | FGdrive u => classify_link u = Gdrive /\ resolved g u = true
     | FMenu u => classify_link u = M3u8
     end) /\
  ((forall u, In u links -> classify_link u = Telegram) -> o = Early /\ tr = []).
Proof.
  intros H. split.
  - intros f Hin. pose proof (trace_in_code_order g env links o tr f H Hin) as Hc.
    unfold code_order in Hc. rewrite !in_app_iff, !in_map_iff in Hc.
    destruct Hc as [(u & <- & Hu)|[(u & <- & Hu)|(u & <- & Hu)]].
    + unfold candidate_direct in Hu. apply in_app_or in Hu.
      destruct Hu as [Hu|Hu]; [left|right]; exact (pick_in _ _ _ Hu).
    + apply List.filter_In in Hu as [Hu Hr]. split; [exact (pick_in _ _ _ Hu)|exact Hr].
    + exact (pick_in _ _ _ Hu).
  - intros Htg.
    assert (Hnone : forall k, k <> Telegram -> pick k links = []).
    { intros k Hk. unfold pick. destruct (List.filter _ links) as [|u rest] eqn:E;
        [reflexivity|].
      assert (Hu : In u (List.filter (fun u => kind_eqb (classify_link u) k) links))
        by (rewrite E; left; reflexivity).
      apply List.filter_In in Hu as [Hu Hk']. apply LinkFacts.kind_eqb_true in Hk'.
      rewrite (Htg u Hu) in Hk'. congruence. }
    revert H. unfold handle_links_download_all, candidate_direct.
    rewrite (Hnone Direct), (Hnone Unknown), (Hnone M3u8), (Hnone Gdrive) by discriminate.
    destruct links; intros H; inversion H; auto.
Qed.

Lemma batch_fetch_kinds_witness :
  let g := fun _ : string => GdNone in
  let env := {| has_user := true; register_raises := false;
                cancel_check := fun _ => false; item_fails := fun _ => false |} in
  let links := ["https://t.me/c/1/2"; "https://telegram.me/x/3"] in
  handle_links_download_all g env links = (Early, []) /\
  ((forall f, In f [] ->
     match f with
     | FDirect u => classify_link u = Direct \/ classify_link u = Unknown
     | FGdrive u => classify_link u = Gdrive /\ resolved g u = true
     | FMenu u => classify_link u = M3u8
     end) /\
   ((forall u, In u links -> classify_link u = Telegram) -> Early = Early /\ @nil fetch = [])).
Proof.
  intros g env links.
  assert (H : handle_links_download_all g env links = (Early, [])) by (vm_compute; reflexivity).
  split; [exact H|]. exact (batch_fetch_kinds g env links Early [] H).
Defined.

End BatchMore.

(* ================================================================== *)
(** ** Facts about the m3u8 menu and the downloader's file name *)
(* ================================================================== *)

Module FetchFacts.
Import PyStr LinkParser LinkFacts LinkMore Posix M3u8Tools Downloader.

Definition no_slash (c : ascii) : bool := negb (is_slash c).

Lemma seg_go_slash cur a b : seg_go cur (a +:+ String "/" b) = seg_go EmptyString b.
Proof.
  revert cur. induction a as [|c a IH]; intros cur; [reflexivity|].
  cbn [String.append seg_go]. destruct (is_slash c); apply IH.
Qed.

Lemma seg_go_noslash cur b : all_chars no_slash b = true -> seg_go cur b = cur +:+ b.
Proof.
  revert cur. induction b as [|c b IH]; intros cur H; cbn [seg_go].
  - symmetry. apply app_nil_str.
  - change ((no_slash c && all_chars no_slash b)%bool = true) in H.
    apply andb_prop in H as [Hc Hb]. unfold no_slash in Hc.
    destruct (is_slash c); [discriminate|].
    rewrite (IH _ Hb), <- app_assoc_str. reflexivity.
Qed.

Lemma basename_last a b : all_chars no_slash b = true -> basename (a +:+ "/" +:+ b) = b.
Proof.
  intros H. unfold basename. change ("/" +:+ b) with (String "/" b).
  rewrite seg_go_slash, seg_go_noslash by exact H. reflexivity.
Qed.

Lemma substring_prefix a b : String.substring 0 (String.length a) (a +:+ b) = a.
Proof.
  induction a as [|c a IH]; cbn; [destruct b; reflexivity|]. rewrite IH. reflexivity.
Qed.

Definition stem_char (c : ascii) : bool := (no_qf c && no_slash c)%bool.

Lemma stem_chars_no_qf s : all_chars stem_char s = true -> all_chars no_qf s = true.
Proof.
  apply all_chars_weaken. unfold stem_char. intros c H. apply andb_prop in H. apply H.
Qed.

Lemma stem_chars_no_slash s : all_chars stem_char s = true -> all_chars no_slash s = true.
Proof.
  apply all_chars_weaken. unfold stem_char. intros c H. apply andb_prop in H. apply H.
Qed.

(** Extra: the m3u8 menu's file name loses a character.  For a URL whose
    last path segment is [name ++ ".m3u8"] (before any query or
    fragment), [offer_m3u8_quality_menu] cuts six characters, one more
    than [.m3u8]: [base_name] is [name] without its last character, e.g.
    [video.m3u8] gives [vide]. *)
Theorem m3u8_base_name_drops_char dir stem c r :
  all_chars no_qf dir = true -> all_chars stem_char (String.append stem (String c EmptyString)) = true ->
  (r = EmptyString \/ exists c' r', r = String c' r' /\ no_qf c' = false) ->
  m3u8_base_name (dir +:+ "/" +:+ (stem +:+ String c ".m3u8") +:+ r) = stem.
Proof.
  intros Hdir Hstem Hr.
  assert (Hseg : all_chars stem_char (stem +:+ String c ".m3u8") = true).
  { replace (stem +:+ String c ".m3u8") with ((stem +:+ String c EmptyString) +:+ ".m3u8")
      by (rewrite <- app_assoc_str; reflexivity).
    rewrite all_chars_app, Hstem. reflexivity. }
  unfold m3u8_base_name.
  rewrite app_assoc_str, app_assoc_str.
  change (before "#" (before "?" (((dir +:+ "/") +:+ (stem +:+ String c ".m3u8")) +:+ r)))
    with (base_of (((dir +:+ "/") +:+ (stem +:+ String c ".m3u8")) +:+ r)).
  rewrite base_of_cut; [| |exact Hr].
  2:{ rewrite all_chars_app, (stem_chars_no_qf _ Hseg), all_chars_app, Hdir. reflexivity. }
  rewrite <- app_assoc_str, basename_last by exact (stem_chars_no_slash _ Hseg).
  destruct (String.eqb (stem +:+ String c ".m3u8") "") eqn:E.
  { apply String.eqb_eq in E. destruct stem; discriminate. }
  replace (stem +:+ String c ".m3u8") with ((stem +:+ String c EmptyString) +:+ ".m3u8")
    by (rewrite <- app_assoc_str; reflexivity).
  rewrite ends_with_app, length_app_str, length_app_str.
  replace (String.length stem + String.length (String c EmptyString) +
           String.length ".m3u8" - 6)%nat with (String.length stem) by (cbn; lia).
  rewrite <- app_assoc_str. apply substring_prefix.
Qed.

Lemma m3u8_base_name_drops_char_witness :
  all_chars no_qf "https://cdn.example.org/live" = true /\
  all_chars stem_char (String.append "vide" (String "o" EmptyString)) = true /\
  ((EmptyString = EmptyString) \/ exists c' r', EmptyString = String c' r' /\ no_qf c' = false) /\
  m3u8_base_name ("https://cdn.example.org/live" +:+ "/" +:+ ("vide" +:+ String "o" ".m3u8")
                  +:+ EmptyString) = "vide".
Proof.
  assert (H1 : all_chars no_qf "https://cdn.example.org/live" = true) by reflexivity.
  assert (H2 : all_chars stem_char (String.append "vide" (String "o" EmptyString)) = true)
    by reflexivity.
  assert (H3 : (EmptyString = EmptyString) \/
               exists c' r', EmptyString = String c' r' /\ no_qf c' = false) by (left; reflexivity).
  split; [exact H1|]. split; [exact H2|]. split; [exact H3|].
  exact (m3u8_base_name_drops_char _ _ _ _ H1 H2 H3).
Defined.

Definition nostar (c : ascii) : bool := negb (Ascii.eqb c "*").

Lemma nostar_lower_char c : nostar (lower_char c) = nostar c.
Proof. ascii_cases c. Qed.

Lemma take_lit_prefix w s r :
  take_lit w s = Some r -> exists w', s = w' +:+ r /\ lower w' = w.
Proof.
  revert s. induction w as [|lc w IH]; intros s; cbn [take_lit].
  - intros [= <-]. exists EmptyString. split; reflexivity.
  - destruct (take_ci lc s) as [[c s']|] eqn:E; [|discriminate].
    apply take_ci_some in E as [-> Hc]. intros H.
    destruct (IH _ H) as (w' & -> & Hw). exists (String c w'). cbn. rewrite Hc, Hw.
    split; reflexivity.
Qed.

Lemma cd_star_at_nostar s : all_chars nostar s = true -> cd_star_at s = None.
Proof.
  intros Hs. unfold cd_star_at.
  destruct (take_lit "filename*" s) as [r|] eqn:E; [|reflexivity].
  exfalso. apply take_lit_prefix in E as (w' & -> & Hw).
  rewrite all_chars_app in Hs. apply andb_prop in Hs as [Hw' _].
  rewrite <- (all_chars_lower nostar w' nostar_lower_char), Hw in Hw'. discriminate.
Qed.

Lemma search_star_none s : all_chars nostar s = true -> search cd_star_at s = None.
Proof.
  induction s as [|c s IH]; intros H; [reflexivity|].
  cbn [search]. rewrite (cd_star_at_nostar _ H).
  change ((nostar c && all_chars nostar s)%bool = true) in H.
  apply andb_prop in H as [_ H]. apply IH, H.
Qed.

Lemma search_cons_eq f s :
  search f s = match f s with
               | Some w => Some w
               | None => match s with EmptyString => None | String _ s' => search f s' end
               end.
Proof. destruct s; reflexivity. Qed.

Lemma span_by_app (p : ascii -> bool) a c t :
  all_chars p a = true -> p c = false -> span_by p (a +:+ String c t) = (a, String c t).
Proof.
  induction a as [|d a IH]; intros Ha Hc; cbn [span_by String.append].
  - rewrite Hc. reflexivity.
  - change ((p d && all_chars p a)%bool = true) in Ha. apply andb_prop in Ha as [Hd Ha].
    rewrite Hd, (IH Ha Hc). reflexivity.
Qed.

Lemma pick_nonempty (x y : string) :
  y <> "" -> (if negb (String.eqb x "") then x else y) <> "".
Proof. intros Hy. destruct (String.eqb_spec x ""); cbn; auto. Qed.

Lemma str_or_nonempty a b : b <> "" -> str_or a b <> "".
Proof. intros Hb. unfold str_or. destruct (String.eqb_spec a ""); auto. Qed.

(** A character of the header's file name: no space, no double quote,
    no [;] and no [*]. *)
Definition name_char (c : ascii) : bool := (nonspace c && not_dq_semi c && nostar c)%bool.

Lemma name_chars (q : ascii -> bool) s :
  (forall c, name_char c = true -> q c = true) -> all_chars name_char s = true ->
  all_chars q s = true.
Proof. apply all_chars_weaken. Qed.

(** Extra: the server decides where [download_file] writes.  The saved
    file name is never empty; and when the response carries
    [Content-Disposition: attachment; filename=Q/some/path Q] ([Q] the
    double quote) with an absolute path, [download_file] saves to that
    exact path, whatever [dest_path], the URL and [file_name] are:
    [os.path.join] drops the destination directory. *)
Theorem download_header_path unquote url dest_path file_name p :
  (forall cd, choose_fname unquote cd url dest_path file_name <> "") /\
  (String.prefix "/" p = true -> all_chars name_char p = true ->
   final_path unquote
     ("attachment; filename=" +:+ String dquote (p +:+ String dquote EmptyString))
     url dest_path file_name = p).
Proof.
  split.
  - intros cd. unfold choose_fname. cbv zeta.
    assert (Hfb : (if negb (String.eqb (basename (before "#" (before "?" url))) "")
                   then basename (before "#" (before "?" url))
                   else str_or (default "" file_name) (str_or (basename dest_path) "file"))
                  <> "").
    { apply pick_nonempty, str_or_nonempty, str_or_nonempty. discriminate. }
    destruct (filename_from_cd unquote cd); [apply pick_nonempty|]; exact Hfb.
  - intros Hp Hall.
    destruct p as [|c0 p']; [discriminate|].
    assert (Hc0 : c0 = "/"%char).
    { cbn [String.prefix] in Hp. destruct (ascii_dec "/" c0) as [E|]; [symmetry; exact E|discriminate]. }
    subst c0. set (p := String "/" p') in *.
    assert (Hns : all_chars nonspace p = true).
    { apply name_chars; [|exact Hall]. intros c Hc. unfold name_char in Hc.
      apply andb_prop in Hc as [Hc _]. apply andb_prop in Hc as [Hc _]. exact Hc. }
    assert (Hnd : all_chars not_dq_semi p = true).
    { apply name_chars; [|exact Hall]. intros c Hc. unfold name_char in Hc.
      apply andb_prop in Hc as [Hc _]. apply andb_prop in Hc as [_ Hc]. exact Hc. }
    assert (Hnq : all_chars (fun c => negb (Ascii.eqb c dquote)) p = true).
    { apply (all_chars_weaken not_dq_semi); [|exact Hnd]. unfold not_dq_semi.
      intros c Hc. apply negb_true_iff in Hc. apply orb_false_iff in Hc as [Hc _].
      rewrite Hc. reflexivity. }
    assert (Hnst : all_chars nostar p = true).
    { apply name_chars; [|exact Hall]. intros c Hc. unfold name_char in Hc.
      apply andb_prop in Hc as [_ Hc]. exact Hc. }
    set (cd := "attachment; filename=" +:+ String dquote (p +:+ String dquote EmptyString)).
    assert (Hstar : search cd_star_at cd = None).
    { apply search_star_none. unfold cd. rewrite all_chars_app.
      change (all_chars nostar (String dquote (p +:+ String dquote EmptyString)))
        with (nostar dquote && all_chars nostar (p +:+ String dquote EmptyString))%bool.
      rewrite all_chars_app, Hnst. reflexivity. }
    assert (Hspan : span_by not_dq_semi (p +:+ String dquote EmptyString)
                    = (p, String dquote EmptyString))
      by (apply span_by_app; [exact Hnd|reflexivity]).
    assert (Eat : cd_plain_at ("filename=" +:+ String dquote (p +:+ String dquote EmptyString))
                  = Some p).
    { remember (p +:+ String dquote EmptyString) as t eqn:Et.
      unfold cd_plain_at. simpl. subst t. rewrite Hspan. reflexivity. }
    assert (Hplain : search cd_plain_at cd = Some p).
    { change (search cd_plain_at cd) with
        (search cd_plain_at ("filename=" +:+ String dquote (p +:+ String dquote EmptyString))).
      rewrite search_cons_eq. rewrite Eat. reflexivity. }
    assert (Hstrip : strip_dq (strip p) = p).
    { rewrite strip_nonspace by exact Hns. unfold strip_dq, strip_by.
      cbn [lstrip_by]. fold p. apply rstrip_id, Hnq. }
    unfold final_path, choose_fname, filename_from_cd.
    replace (String.eqb cd "") with false by reflexivity.
    rewrite Hstar, Hplain, Hstrip. cbn [negb String.eqb p].
    unfold join. cbn [String.prefix p].
    destruct (ascii_dec "/" "/") as [_|n]; [|contradiction n; reflexivity].
    destruct p'; reflexivity.
Qed.

Lemma download_header_path_witness :
  String.prefix "/" "/etc/cron.d/job" = true /\ all_chars name_char "/etc/cron.d/job" = true /\
  final_path (fun s => s)
    ("attachment; filename=" +:+ String dquote ("/etc/cron.d/job" +:+ String dquote EmptyString))
    "https://files.example.org/report.pdf" "/tmp/dl/report.pdf" None = "/etc/cron.d/job".
Proof.
  assert (H1 : String.prefix "/" "/etc/cron.d/job" = true) by reflexivity.
  assert (H2 : all_chars name_char "/etc/cron.d/job" = true) by reflexivity.
  split; [exact H1|]. split; [exact H2|].
  exact (proj2 (download_header_path (fun s => s) "https://files.example.org/report.pdf"
                  "/tmp/dl/report.pdf" None "/etc/cron.d/job") H1 H2).
Defined.

End FetchFacts.
